(** * Backup engine of [Backup.py]: full, incremental and differential runs

    A shallow embedding of [BackupSystem] (src/Backup.py): the manifest
    store ([_load_manifest], [_save_manifest]), the hasher
    ([_calculate_file_hash]), the tree walk ([rglob] filtered by
    [is_file]) and the three strategies [full_backup],
    [incremental_backup] and [differential_backup].

    The methods run in a monad that threads the disk and may raise: an
    exception keeps every effect performed before it, as in Python. *)

From stdpp Require Import gmap strings list fin_maps pretty.

Open Scope string_scope.
Open Scope list_scope.

(** ** Data model *)

(** One element of [manifest['backups']]: the dict built as [backup_info].
    A full record has no ['parent'] key. *)
Record backup_info := BackupInfo {
  type : string;
  timestamp : string;
  path : string;
  files : gmap string string;
  parent : option string
}.

(** What [self.source_dir.rglob('*')] can yield: [is_file()] holds of
    [RegularFile] only. *)
Inductive entry :=
  | RegularFile (data : string)
  | Directory.

(** Content of [backup_manifest.json]: the text written by a complete
    [json.dump], or text [json.load] rejects. *)
Inductive manifest_text :=
  | Json (backups : list backup_info)
  | Unparsable.

(** The disk and the progress task.  [source_dir] maps the path of every
    entry under the source root, relative to it, to the entry;
    [backup_dir] maps the name of every sub-folder of the backup root to the
    files below it (relative path to content); [manifest_file] is [None]
    when the file does not exist.  The two roots are disjoint trees. *)
Record world := World {
  source_dir : gmap string entry;
  backup_dir : gmap string (gmap string string);
  manifest_file : option manifest_text;
  description : string;
  total : option nat
}.

(** The filesystem calls of the copy loop that can raise. *)
Inductive io_op := op_read | op_mkdir | op_copy.

(** How writing the manifest can fail: [open(..., 'w')] raises and the file
    is untouched, or the file is opened, hence truncated, and [json.dump]
    is interrupted. *)
Inductive save_fault := open_fails | dump_fails.

Inductive exn :=
  | OSError (op : io_op) (file : string)
  | FileNotFoundError (file : string)
  | SaveError (f : save_fault).

(** What a run cannot choose: the clock reading, the string of
    [self.backup_dir], and which calls the operating system refuses. *)
Record Env := MkEnv {
  now : string;
  backup_root : string;
  io_error : io_op → string → bool;
  save_error : option save_fault
}.

#[global] Instance io_op_eq_dec : EqDecision io_op.
Proof. solve_decision. Defined.
#[global] Instance save_fault_eq_dec : EqDecision save_fault.
Proof. solve_decision. Defined.
#[global] Instance exn_eq_dec : EqDecision exn.
Proof. solve_decision. Defined.

(** ** The monad: state passing with exceptions *)

Inductive result (A : Type) :=
  | Return (a : A)
  | Raise (e : exn).
Arguments Return {A} a.
Arguments Raise {A} e.

Definition M (A : Type) : Type := world → result A * world.

Definition ret {A} (a : A) : M A := λ w, (Return a, w).
Definition raise {A} (e : exn) : M A := λ w, (Raise e, w).
Definition bind {A B} (c : M A) (k : A → M B) : M B := λ w,
  match c w with
  | (Return a, w') => k a w'
  | (Raise e, w') => (Raise e, w')
  end.
#[global] Instance M_ret : MRet M := @ret.
#[global] Instance M_bind : MBind M := λ A B k c, bind c k.
(** [try: body except Exception as e: handler e] *)
Definition try_except {A} (body : M A) (handler : exn → M A) : M A := λ w,
  match body w with
  | (Return a, w') => (Return a, w')
  | (Raise e, w') => handler e w'
  end.


Definition str_io_op (op : io_op) : string :=
  match op with
  | op_read => "read"
  | op_mkdir => "mkdir"
  | op_copy => "copy"
  end.

(** [str(e)] *)
Definition str_exn (e : exn) : string :=
  match e with
  | OSError op file => "cannot " +:+ str_io_op op +:+ " " +:+ file
  | FileNotFoundError file => "No such file or directory: " +:+ file
  | SaveError open_fails => "cannot open manifest"
  | SaveError dump_fails => "cannot write manifest"
  end.

(** ** Primitive effects *)

(** [progress.update(task, description=d)] *)
Definition update_description (d : string) : M unit := λ w,
  (Return (), World (source_dir w) (backup_dir w) (manifest_file w) d (total w)).

(** [progress.update(task, total=n)] *)
Definition update_total (n : nat) : M unit := λ w,
  (Return (), World (source_dir w) (backup_dir w) (manifest_file w)
                    (description w) (Some n)).

Definition set_backup_dir (bd : gmap string (gmap string string)) (w : world) : world :=
  World (source_dir w) bd (manifest_file w) (description w) (total w).

Definition set_manifest_file (mf : option manifest_text) (w : world) : world :=
  World (source_dir w) (backup_dir w) mf (description w) (total w).

(** [backup_path.mkdir(parents=True, exist_ok=True)]: an existing folder
    keeps its content. *)
Definition mkdir (folder : string) : M unit := λ w,
  match backup_dir w !! folder with
  | Some _ => (Return (), w)
  | None => (Return (), set_backup_dir (<[folder := ∅]> (backup_dir w)) w)
  end.

(** [shutil.rmtree(backup_path, ignore_errors=...)] *)
Definition rmtree (folder : string) (ignore_errors : bool) : M unit := λ w,
  match backup_dir w !! folder with
  | Some _ => (Return (), set_backup_dir (delete folder (backup_dir w)) w)
  | None => if ignore_errors then (Return (), w)
            else (Raise (FileNotFoundError folder), w)
  end.

(** [self.source_dir.rglob('*')], each path relative to [self.source_dir]. *)
Definition rglob : M (list (string * entry)) := λ w,
  (Return (map_to_list (source_dir w)), w).

Definition is_file (e : entry) : bool :=
  match e with
  | RegularFile _ => true
  | Directory => false
  end.

Section Engine.

(** [hashlib.md5] folded over the chunks of a file, then [hexdigest]. *)
Context (md5_hexdigest : string → string).
Context (env : Env).

(** [open(filepath, "rb")] and the reads of one file of the source. *)
Definition read_source (op : io_op) (rel_path : string) : M string := λ w,
  if io_error env op rel_path then (Raise (OSError op rel_path), w)
  else match source_dir w !! rel_path with
       | Some (RegularFile data) => (Return data, w)
       | _ => (Raise (FileNotFoundError rel_path), w)
       end.

Definition _calculate_file_hash (rel_path : string) : M string :=
  data ← read_source op_read rel_path ;
  ret (md5_hexdigest data).

(** [dest_file.parent.mkdir(parents=True, exist_ok=True)] for
    [dest_file = backup_path / rel_path]. *)
Definition mkdir_parent (folder rel_path : string) : M unit := λ w,
  if io_error env op_mkdir rel_path then (Raise (OSError op_mkdir rel_path), w)
  else mkdir folder w.

(** Writing [dest_file = backup_path / rel_path]. *)
Definition write_dest (folder rel_path data : string) : M unit := λ w,
  match backup_dir w !! folder with
  | Some content =>
      (Return (),
       set_backup_dir (<[folder := <[rel_path := data]> content]> (backup_dir w)) w)
  | None => (Raise (FileNotFoundError folder), w)
  end.

(** [shutil.copy2(src_file, dest_file)] *)
Definition copy2 (folder rel_path : string) : M unit :=
  data ← read_source op_copy rel_path ;
  write_dest folder rel_path data.

(** ** Manifest store *)

Definition _load_manifest : M (list backup_info) := λ w,
  match manifest_file w with
  | Some (Json backups) => (Return backups, w)
  | Some Unparsable => (Return [], w)
  | None => (Return [], w)
  end.

Definition _save_manifest (manifest : list backup_info) : M unit := λ w,
  match save_error env with
  | None => (Return (), set_manifest_file (Some (Json manifest)) w)
  | Some open_fails => (Raise (SaveError open_fails), w)
  | Some dump_fails => (Raise (SaveError dump_fails), set_manifest_file (Some Unparsable) w)
  end.

Definition _count_files : M nat := λ w,
  (Return (length (filter (λ pe, is_file pe.2 = true) (map_to_list (source_dir w)))), w).

(** ** Full strategy *)

Definition path_of (folder : string) : string := backup_root env +:+ "/" +:+ folder.

(** The [for src_file in self.source_dir.rglob('*')] loop of [full_backup]. *)
Fixpoint full_loop (folder : string) (walk : list (string * entry))
    (file_manifest : gmap string string) (files_processed : nat)
    : M (gmap string string * nat) :=
  match walk with
  | [] => ret (file_manifest, files_processed)
  | (rel_path, e) :: rest =>
      if is_file e then
        mkdir_parent folder rel_path ;;
        update_description ("[cyan]Backing up: " +:+ rel_path) ;;
        copy2 folder rel_path ;;
        h ← _calculate_file_hash rel_path ;
        full_loop folder rest (<[rel_path := h]> file_manifest) (S files_processed)
      else full_loop folder rest file_manifest files_processed
  end.

Definition full_backup : M (string * nat) :=
  let timestamp := now env in
  let folder := "full_backup_" +:+ timestamp in
  mkdir folder ;;
  manifest ← _load_manifest ;
  total_files ← _count_files ;
  update_total total_files ;;
  try_except
    (walk ← rglob ;
     r ← full_loop folder walk ∅ 0 ;
     let backup_info :=
       {| type := "full"; timestamp := timestamp; path := path_of folder;
          files := r.1; parent := None |} in
     _save_manifest (manifest ++ [backup_info]) ;;
     update_description "[bold green]Backup completed successfully!" ;;
     ret (path_of folder, r.2))
    (λ e,
     update_description ("[bold red]Backup failed: " +:+ str_exn e) ;;
     rmtree folder true ;;
     raise e).

(** ** Incremental and differential strategies *)

(** [rel_path not in last_files or last_files[rel_path] != current_hash] *)
Definition is_new_or_modified (last_files : gmap string string)
    (rel_path current_hash : string) : bool :=
  match last_files !! rel_path with
  | None => true
  | Some h => negb (String.eqb h current_hash)
  end.

(** The loop of [incremental_backup], which [differential_backup] repeats
    line for line with [changed_files] for [new_files].  [files_processed]
    is counted by the source and never read; it is left out. *)
Fixpoint delta_loop (folder : string) (last_files : gmap string string)
    (walk : list (string * entry))
    (new_files : gmap string string) (files_backed_up : nat)
    : M (gmap string string * nat) :=
  match walk with
  | [] => ret (new_files, files_backed_up)
  | (rel_path, e) :: rest =>
      if is_file e then
        update_description ("[cyan]Analyzing: " +:+ rel_path) ;;
        current_hash ← _calculate_file_hash rel_path ;
        if is_new_or_modified last_files rel_path current_hash then
          mkdir_parent folder rel_path ;;
          update_description ("[cyan]Backing up: " +:+ rel_path) ;;
          copy2 folder rel_path ;;
          delta_loop folder last_files rest
            (<[rel_path := current_hash]> new_files) (S files_backed_up)
        else delta_loop folder last_files rest new_files files_backed_up
      else delta_loop folder last_files rest new_files files_backed_up
  end.

(** [if new_files:] *)
Definition truthy (d : gmap string string) : bool :=
  match map_to_list d with
  | [] => false
  | _ :: _ => true
  end.

(** What the two methods share from the line that reads the clock on: the
    reference record is [last_backup] for [incremental_backup] and
    [last_full] for [differential_backup]; [kind] is the ['type'] written
    and [prefix] the folder name's. *)
Definition delta_backup (kind prefix : string) (manifest : list backup_info)
    (reference : backup_info) : M (option string * nat) :=
  let last_files := files reference in
  let parent_timestamp := timestamp reference in
  let timestamp := now env in
  let folder := prefix +:+ timestamp in
  mkdir folder ;;
  total_files ← _count_files ;
  update_total total_files ;;
  try_except
    (walk ← rglob ;
     r ← delta_loop folder last_files walk ∅ 0 ;
     if truthy r.1 then
       let backup_info :=
         {| type := kind; timestamp := timestamp; path := path_of folder;
            files := r.1; parent := Some parent_timestamp |} in
       _save_manifest (manifest ++ [backup_info]) ;;
       update_description
         ("[bold green]Backup completed! " +:+ pretty r.2 +:+ " files updated") ;;
       ret (Some (path_of folder), r.2)
     else
       update_description "[bold yellow]No changes detected, backup skipped" ;;
       rmtree folder false ;;
       ret (None, 0))
    (λ e,
     update_description ("[bold red]Backup failed: " +:+ str_exn e) ;;
     rmtree folder true ;;
     raise e).

Definition incremental_backup : M (option string * nat) :=
  manifest ← _load_manifest ;
  match manifest with
  | [] =>
      update_description "[bold red]No backup found. Incremental backup skipped." ;;
      ret (None, 0)
  | first :: rest =>
      let last_backup := List.last rest first in
      delta_backup "incremental" "incr_backup_" manifest last_backup
  end.

(** [backup['type'] == 'full'] *)
Definition is_full (backup : backup_info) : bool := String.eqb (type backup) "full".

Definition differential_backup : M (option string * nat) :=
  manifest ← _load_manifest ;
  match manifest with
  | [] =>
      update_description
        "[bold red]No full backup found. Differential backup skipped." ;;
      ret (None, 0)
  | _ :: _ =>
      match List.find is_full (reverse manifest) with
      | None =>
          update_description
            "[bold yellow]No full backup found. Differential backup skipped." ;;
          ret (None, 0)
      | Some last_full =>
          delta_backup "differential" "diff_backup_" manifest last_full
      end
  end.

(** ** The callers: [full_backup_call] and its two siblings

    Each opens a progress display and a task, runs the engine and prints.
    What is printed is returned, one string per line handed to
    [console.print] (markup included, a leading or trailing [\n] as an
    empty line); [time.sleep] is left out. *)

(** [progress.add_task(d, total=None)] *)
Definition add_task (d : string) : M unit := λ w,
  (Return (), World (source_dir w) (backup_dir w) (manifest_file w) d None).

(** [f"{backup_path}"] for a path or [None] *)
Definition str_path (backup_path : option string) : string :=
  default "None" backup_path.

(** [if result:] for the pair an engine method returns: a tuple of two
    elements is not empty. *)
Definition tuple_truthy {A B} (result : A * B) : bool := true.

Definition failed_lines (e : exn) : list string :=
  [""; "[bold red]✗[/bold red] Backup failed: " +:+ str_exn e; ""].

Definition full_backup_call : M (list string) :=
  add_task "[cyan]Initializing full backup..." ;;
  try_except
    (r ← full_backup ;
     ret [""; "[green]• Backup location: " +:+ r.1;
          "[green]• Files processed: " +:+ pretty r.2; ""])
    (λ e, ret (failed_lines e)).

Definition incremental_backup_call : M (list string) :=
  add_task "[cyan]Analyzing changes..." ;;
  try_except
    (result ← incremental_backup ;
     ret ((if tuple_truthy result then
             [""; "[green]• Backup location: " +:+ str_path result.1;
              "[green]• Files updated: " +:+ pretty result.2]
           else []) ++ [""]))
    (λ e, ret (failed_lines e)).

Definition differential_backup_call : M (list string) :=
  add_task "[cyan]Calculating differences..." ;;
  try_except
    (result ← differential_backup ;
     ret ((if tuple_truthy result then
             [""; "[green]• Backup location: " +:+ str_path result.1;
              "[green]• Files updated: " +:+ pretty result.2]
           else []) ++ [""]))
    (λ e, ret (failed_lines e)).

End Engine.

(** ** The hasher, chunk by chunk

    [_calculate_file_hash] reads the file in chunks of 4096 bytes and feeds
    each to the hash object.  [hashlib.md5] is a parameter: the state type,
    the fresh state, [update] and [hexdigest]. *)

Definition chunk_size : nat := 4096.

(** [f.read(n)] on what is left of the file: the chunk read and what is
    left after it. *)
Fixpoint read (n : nat) (left : string) : string * string :=
  match n, left with
  | S n', String c rest => let r := read n' rest in (String c r.1, r.2)
  | _, _ => ("", left)
  end.

(** [iter(lambda: f.read(n), b"")]: the chunks before the first empty one.
    A chunk that is not empty shortens what is left, so a fuel above the
    length of the file is never used up. *)
Fixpoint read_until_empty (n fuel : nat) (left : string) : list string :=
  match fuel with
  | 0 => []
  | S fuel' =>
      let r := read n left in
      match r.1 with
      | "" => []
      | chunk => chunk :: read_until_empty n fuel' r.2
      end
  end.

Definition chunks (data : string) : list string :=
  read_until_empty chunk_size (S (String.length data)) data.

Section Hasher.

Context {H : Type} (md5 : H) (update : H → string → H) (hexdigest : H → string).

(** [_calculate_file_hash] on a file that holds [data]. *)
Definition calculate_file_hash_chunked (data : string) : string :=
  hexdigest (foldl update md5 (chunks data)).

End Hasher.

(** ** Vocabulary of the statements *)

Definition file_data (e : entry) : option string :=
  match e with
  | RegularFile data => Some data
  | Directory => None
  end.

(** The regular files of a tree: relative path to content. *)
Definition regular_files (src : gmap string entry) : gmap string string :=
  omap file_data src.

(** The records a load of the manifest file yields. *)
Definition stored_records (w : world) : list backup_info :=
  match manifest_file w with
  | Some (Json backups) => backups
  | _ => []
  end.

(** A file is new or changed relative to a reference set: its path is
    absent from the set or is mapped to another digest. *)
Definition differs (md5_hexdigest : string → string)
    (reference : gmap string string) (pd : string * string) : Prop :=
  reference !! pd.1 ≠ Some (md5_hexdigest pd.2).

#[global] Instance differs_dec md5 reference pd : Decision (differs md5 reference pd).
Proof. unfold differs. apply _. Defined.

Definition changed_files (md5_hexdigest : string → string)
    (reference : gmap string string) (src : gmap string entry)
    : gmap string string :=
  filter (differs md5_hexdigest reference) (regular_files src).

(** The first of [ops], in order, that the system refuses on [file]. *)
Definition file_fault (env : Env) (ops : list io_op) (file : string) : option exn :=
  (λ op, OSError op file) <$> List.find (λ op, io_error env op file) ops.

(** The exception that ends the loop of [full_backup] on a walk, if any:
    per regular file the loop makes the parent directory, copies, then
    hashes. *)
Fixpoint full_loop_fault (env : Env) (walk : list (string * entry)) : option exn :=
  match walk with
  | [] => None
  | (rel_path, e) :: rest =>
      if is_file e then
        match file_fault env [op_mkdir; op_copy; op_read] rel_path with
        | Some x => Some x
        | None => full_loop_fault env rest
        end
      else full_loop_fault env rest
  end.

(** The same for the loop of the other two strategies: every regular file
    is hashed, and a new or changed one then gets its parent directory and
    is copied. *)
Fixpoint delta_loop_fault (md5_hexdigest : string → string) (env : Env)
    (reference : gmap string string) (walk : list (string * entry)) : option exn :=
  match walk with
  | [] => None
  | (rel_path, e) :: rest =>
      match e with
      | RegularFile data =>
          match file_fault env
                  (op_read ::
                   if is_new_or_modified reference rel_path (md5_hexdigest data)
                   then [op_mkdir; op_copy] else []) rel_path with
          | Some x => Some x
          | None => delta_loop_fault md5_hexdigest env reference rest
          end
      | Directory => delta_loop_fault md5_hexdigest env reference rest
      end
  end.

(** No call in [ops] is refused on a file of [fs]. *)
Definition io_ok (env : Env) (ops : list io_op) (fs : gmap string string) : Prop :=
  ∀ p op, is_Some (fs !! p) → op ∈ ops → io_error env op p = false.

(** The record a completed full run appends. *)
Definition full_record (md5_hexdigest : string → string) (env : Env)
    (src : gmap string entry) : backup_info :=
  {| type := "full"; timestamp := now env;
     path := path_of env ("full_backup_" +:+ now env);
     files := md5_hexdigest <$> regular_files src;
     parent := None |}.

(** The record a completed incremental or differential run appends. *)
Definition delta_record (md5_hexdigest : string → string) (env : Env)
    (kind prefix : string) (reference : backup_info)
    (src : gmap string entry) : backup_info :=
  {| type := kind; timestamp := now env;
     path := path_of env (prefix +:+ now env);
     files := md5_hexdigest <$> changed_files md5_hexdigest (files reference) src;
     parent := Some (timestamp reference) |}.

(** The manifest file after a save that fails with [f]. *)
Definition after_failed_save (f : save_fault) (before : option manifest_text)
    : option manifest_text :=
  match f with
  | open_fails => before
  | dump_fails => Some Unparsable
  end.

(** Some call the loop of [full_backup] makes on a regular file of the
    source is refused. *)
Definition full_loop_refused (env : Env) (src : gmap string entry) : Prop :=
  ∃ p d op, src !! p = Some (RegularFile d) ∧ io_error env op p = true.

(** Some call the loop of the other two strategies makes is refused: the
    read of a regular file, or the [mkdir] or the copy of one that is new or
    changed. *)
Definition delta_loop_refused (md5_hexdigest : string → string) (env : Env)
    (reference : gmap string string) (src : gmap string entry) : Prop :=
  ∃ p d, src !! p = Some (RegularFile d)
    ∧ (io_error env op_read p = true
       ∨ differs md5_hexdigest reference (p, d)
         ∧ (io_error env op_mkdir p = true ∨ io_error env op_copy p = true)).

(** The nearest full record searching backward: [reference] is full and
    nothing after it is. *)
Definition nearest_full (manifest : list backup_info) (reference : backup_info)
    : Prop :=
  ∃ older newer,
    manifest = older ++ reference :: newer
    ∧ type reference = "full"
    ∧ Forall (λ b, type b ≠ "full") newer.

(** ** Statements of the specification that the code does not satisfy *)

(** After the copy phase, a save that fails leaves the run's folder on
    disk (here for a full run). *)
Definition orphan_folder_survives (md5_hexdigest : string → string) (env : Env)
    (w : world) : Prop :=
  ∀ f,
    io_ok env [op_mkdir; op_copy; op_read] (regular_files (source_dir w)) →
    save_error env = Some f →
    ∃ w', full_backup md5_hexdigest env w = (Raise (SaveError f), w')
      ∧ is_Some (backup_dir w' !! ("full_backup_" +:+ now env)).

(** A save that fails replaces the file atomically or not at all: a load
    that follows returns the records stored before the save, or raises. *)
Definition failed_save_is_atomic (env : Env) (manifest : list backup_info)
    (w : world) : Prop :=
  ∀ x w',
    _save_manifest env manifest w = (Raise x, w') →
    (_load_manifest w').1 = Return (stored_records w)
    ∨ ∃ y, (_load_manifest w').1 = Raise y.

(** The folder of a full run is named [full_<timestamp>]. *)
Definition full_folder_named_full_ts (md5_hexdigest : string → string)
    (env : Env) (w : world) : Prop :=
  ∀ v w',
    full_backup md5_hexdigest env w = (Return v, w') →
    is_Some (backup_dir w' !! ("full_" +:+ now env)).

(** ** A scenario: two files and a directory, three runs *)

Definition toy_digest (data : string) : string := "H(" +:+ data +:+ ")".

Definition no_io_error : io_op → string → bool := λ _ _, false.

Definition env_at (ts : string) : Env := MkEnv ts "/backups" no_io_error None.

(** The copy of [b.txt] is refused. *)
Definition env_copy_refused (ts : string) : Env :=
  MkEnv ts "/backups"
    (λ op p, match op with op_copy => String.eqb p "b.txt" | _ => false end)
    None.

Definition env_save_fails (ts : string) (f : save_fault) : Env :=
  MkEnv ts "/backups" no_io_error (Some f).

Definition tree0 : gmap string entry :=
  <["a.txt" := RegularFile "hello"]>
    (<["b.txt" := RegularFile "world"]> (<["docs" := Directory]> ∅)).

Definition world0 : world := World tree0 ∅ None "" None.

(** The user rewrites a file of the source between two runs. *)
Definition write_source (p data : string) (w : world) : world :=
  World (<[p := RegularFile data]> (source_dir w)) (backup_dir w)
        (manifest_file w) (description w) (total w).

Definition world_full : world := (full_backup toy_digest (env_at "T0") world0).2.

Definition world_edit1 : world := write_source "a.txt" "hello!" world_full.

Definition world_incr : world :=
  (incremental_backup toy_digest (env_at "T1") world_edit1).2.

Definition world_edit2 : world := write_source "b.txt" "world!" world_incr.

Definition record_full : backup_info := full_record toy_digest (env_at "T0") tree0.

Definition record_incr : backup_info :=
  delta_record toy_digest (env_at "T1") "incremental" "incr_backup_" record_full
    (source_dir world_edit1).

(** A manifest whose only record is incremental: no full record. *)
Definition world_no_full : world :=
  World tree0 ∅ (Some (Json [record_incr])) "" None.

(** The user removes an entry from the source between two runs. *)
Definition remove_source (p : string) (w : world) : world :=
  World (delete p (source_dir w)) (backup_dir w)
        (manifest_file w) (description w) (total w).

(** A source that holds directories and no file. *)
Definition world_dirs_only : world :=
  World (<["docs" := Directory]> (<["docs/img" := Directory]> ∅)) ∅ None "" None.

(** A file of [n] bytes. *)
Fixpoint filler (n : nat) : string :=
  match n with
  | 0 => ""
  | S n' => "x" +:+ filler n'
  end.

(** ** Basic facts *)

Section Facts.

Context (md5 : string → string) (env : Env).

Lemma regular_files_lookup (src : gmap string entry) p d :
  regular_files src !! p = Some d ↔ src !! p = Some (RegularFile d).
Proof.
  unfold regular_files. rewrite lookup_omap_Some. split.
  - intros (e & He & Hp). destruct e; simpl in He; by simplify_eq.
  - intros H. by exists (RegularFile d).
Qed.

Lemma regular_files_cons_file (walk : list (string * entry)) p d :
  regular_files (list_to_map ((p, RegularFile d) :: walk))
  = <[p := d]> (regular_files (list_to_map walk)).
Proof. unfold regular_files. simpl. by apply omap_insert_Some. Qed.

Lemma regular_files_notin (walk : list (string * entry)) p :
  p ∉ walk.*1 → regular_files (list_to_map walk) !! p = None.
Proof.
  intros H. unfold regular_files. rewrite lookup_omap.
  by rewrite (proj1 (not_elem_of_list_to_map walk p) H).
Qed.

Lemma regular_files_cons_dir (walk : list (string * entry)) p :
  p ∉ walk.*1 →
  regular_files (list_to_map ((p, Directory) :: walk))
  = regular_files (list_to_map walk).
Proof.
  intros H. unfold regular_files. simpl. rewrite omap_insert_None by done.
  apply delete_id. by apply regular_files_notin.
Qed.

Lemma file_fault_None ops p :
  file_fault env ops p = None ↔ ∀ op, op ∈ ops → io_error env op p = false.
Proof.
  unfold file_fault. split.
  - intros H op Hop.
    destruct (List.find _ ops) eqn:Hf; [done|].
    apply list_elem_of_In in Hop.
    by apply (List.find_none _ _ Hf _ Hop).
  - intros H. destruct (List.find _ ops) as [op|] eqn:Hf; [|done].
    apply List.find_some in Hf as [Hin Hio].
    apply list_elem_of_In in Hin. by rewrite (H op Hin) in Hio.
Qed.

Lemma file_fault_Some ops p x :
  file_fault env ops p = Some x →
  ∃ op, x = OSError op p ∧ op ∈ ops ∧ io_error env op p = true.
Proof.
  unfold file_fault. destruct (List.find _ ops) as [op|] eqn:Hf; [|done].
  intros [= <-]. apply List.find_some in Hf as [Hin Hio].
  exists op. by rewrite list_elem_of_In.
Qed.

Lemma full_loop_fault_None (walk : list (string * entry)) :
  full_loop_fault env walk = None
  ↔ ∀ p d op, (p, RegularFile d) ∈ walk → io_error env op p = false.
Proof.
  induction walk as [|[q e] rest IH]; cbn [full_loop_fault].
  - split; [|done]. intros _ p d op H. by apply elem_of_nil in H.
  - destruct e as [d'|]; cbn [is_file].
    + destruct (file_fault env _ q) as [x|] eqn:Hq.
      * split; [done|]. intros H.
        apply file_fault_Some in Hq as (op & _ & _ & Hio).
        rewrite (H q d' op) in Hio; [done|left].
      * rewrite IH. split.
        -- intros H p d op [[= -> ->]|Hin]%elem_of_cons; [|by eapply H].
           apply (proj1 (file_fault_None _ _) Hq). destruct op; apply list_elem_of_In; cbn; tauto.
        -- intros H p d op Hin. apply (H p d op). by right.
    + rewrite IH. split.
      * intros H p d op [[=]|Hin]%elem_of_cons. by eapply H.
      * intros H p d op Hin. apply (H p d op). by right.
Qed.

Lemma full_loop_fault_Some (walk : list (string * entry)) x :
  full_loop_fault env walk = Some x →
  ∃ op p d, x = OSError op p ∧ (p, RegularFile d) ∈ walk
            ∧ io_error env op p = true.
Proof.
  induction walk as [|[q e] rest IH]; [done|]. cbn [full_loop_fault].
  destruct e as [d'|]; cbn [is_file].
  - destruct (file_fault env _ q) as [y|] eqn:Hq.
    + intros [= ->]. apply file_fault_Some in Hq as (op & -> & _ & Hio).
      exists op, q, d'. split; [done|]. split; [left|done].
    + intros (op & p & d & ? & ? & ?)%IH. exists op, p, d.
      split; [done|]. split; [by right|done].
  - intros (op & p & d & ? & ? & ?)%IH. exists op, p, d.
    split; [done|]. split; [by right|done].
Qed.

Lemma delta_loop_fault_None last (walk : list (string * entry)) :
  delta_loop_fault md5 env last walk = None
  ↔ ∀ p d, (p, RegularFile d) ∈ walk →
      io_error env op_read p = false
      ∧ (is_new_or_modified last p (md5 d) = true →
         io_error env op_mkdir p = false ∧ io_error env op_copy p = false).
Proof.
  induction walk as [|[q e] rest IH]; cbn [delta_loop_fault].
  - split; [|done]. intros _ p d H. by apply elem_of_nil in H.
  - destruct e as [d'|].
    + destruct (file_fault env _ q) as [x|] eqn:Hq.
      * split; [done|]. intros H.
        apply file_fault_Some in Hq as (op & _ & Hop & Hio).
        destruct (H q d') as [Hr Hmc]; [left|].
        apply elem_of_cons in Hop as [->|Hop]; [congruence|].
        destruct (is_new_or_modified last q (md5 d'));
          [|by apply elem_of_nil in Hop].
        destruct (Hmc eq_refl) as [Hm Hc].
        apply elem_of_cons in Hop as [->|Hop]; [congruence|].
        apply list_elem_of_singleton in Hop as ->. congruence.
      * rewrite IH. pose proof (proj1 (file_fault_None _ _) Hq) as Hok. split.
        -- intros H p d [[= -> ->]|Hin]%elem_of_cons; [|by apply H].
           split; [apply Hok; left|].
           intros Hnew. rewrite Hnew in Hok.
           split; apply Hok; apply list_elem_of_In; cbn; tauto.
        -- intros H p d Hin. apply (H p d). by right.
    + rewrite IH. split.
      * intros H p d [[=]|Hin]%elem_of_cons. by apply H.
      * intros H p d Hin. apply (H p d). by right.
Qed.

Lemma delta_loop_fault_Some last (walk : list (string * entry)) x :
  delta_loop_fault md5 env last walk = Some x →
  ∃ op p d, x = OSError op p ∧ (p, RegularFile d) ∈ walk
            ∧ io_error env op p = true.
Proof.
  induction walk as [|[q e] rest IH]; [done|]. cbn [delta_loop_fault].
  destruct e as [d'|].
  - destruct (file_fault env _ q) as [y|] eqn:Hq.
    + intros [= ->]. apply file_fault_Some in Hq as (op & -> & _ & Hio).
      exists op, q, d'. split; [done|]. split; [left|done].
    + intros (op & p & d & ? & ? & ?)%IH. exists op, p, d.
      split; [done|]. split; [by right|done].
  - intros (op & p & d & ? & ? & ?)%IH. exists op, p, d.
    split; [done|]. split; [by right|done].
Qed.

Lemma bind_run {A B} (c : M A) (k : A → M B) w :
  (c ≫= k) w
  = match c w with
    | (Return a, w') => k a w'
    | (Raise x, w') => (Raise x, w')
    end.
Proof. reflexivity. Qed.

Lemma mkdir_parent_run folder p w content :
  backup_dir w !! folder = Some content →
  mkdir_parent env folder p w
  = if io_error env op_mkdir p then (Raise (OSError op_mkdir p), w)
    else (Return (), w).
Proof. intros H. unfold mkdir_parent, mkdir. by rewrite H. Qed.

Lemma copy2_run folder p d w content :
  source_dir w !! p = Some (RegularFile d) →
  backup_dir w !! folder = Some content →
  copy2 env folder p w
  = if io_error env op_copy p then (Raise (OSError op_copy p), w)
    else (Return (),
          set_backup_dir (<[folder := <[p := d]> content]> (backup_dir w)) w).
Proof.
  intros Hs Hb. unfold copy2. rewrite bind_run. unfold read_source.
  destruct (io_error env op_copy p); [done|].
  rewrite Hs. unfold write_dest. by rewrite Hb.
Qed.

Lemma hash_run p d w :
  source_dir w !! p = Some (RegularFile d) →
  _calculate_file_hash md5 env p w
  = if io_error env op_read p then (Raise (OSError op_read p), w)
    else (Return (md5 d), w).
Proof.
  intros Hs. unfold _calculate_file_hash. rewrite bind_run. unfold read_source.
  destruct (io_error env op_read p); [done|]. by rewrite Hs.
Qed.

Lemma full_loop_spec folder (walk : list (string * entry)) :
  ∀ acc n w content,
  NoDup walk.*1 →
  (∀ p e, (p, e) ∈ walk → source_dir w !! p = Some e) →
  backup_dir w !! folder = Some content →
  ∃ w' content',
    full_loop md5 env folder walk acc n w
    = (match full_loop_fault env walk with
       | Some x => Raise x
       | None => Return ((md5 <$> regular_files (list_to_map walk)) ∪ acc,
                         size (regular_files (list_to_map walk)) + n)
       end, w')
    ∧ source_dir w' = source_dir w
    ∧ manifest_file w' = manifest_file w
    ∧ total w' = total w
    ∧ backup_dir w' = <[folder := content']> (backup_dir w)
    ∧ (full_loop_fault env walk = None →
       content' = regular_files (list_to_map walk) ∪ content).
Proof.
  induction walk as [|[p e] rest IH]; intros acc n w content Hnd Hsrc Hdir.
  - exists w, content. simpl. unfold regular_files.
    rewrite omap_empty, fmap_empty, map_size_empty, !(left_id_L ∅ (∪)).
    repeat split; try done. by rewrite insert_id.
  - apply NoDup_cons in Hnd as [Hp Hnd].
    assert (Hpe : source_dir w !! p = Some e) by (apply Hsrc; left).
    assert (Hrest : ∀ q e', (q, e') ∈ rest → source_dir w !! q = Some e')
      by (intros q e' Hq; apply Hsrc; by right).
    destruct e as [d|]; cbn [full_loop full_loop_fault is_file].
    + rewrite regular_files_cons_file.
      unfold file_fault; cbn [List.find].
      rewrite bind_run, (mkdir_parent_run _ _ _ _ Hdir).
      destruct (io_error env op_mkdir p).
      { exists w, content. cbn. repeat split; try done. by rewrite insert_id. }
      rewrite bind_run. cbn [update_description].
      set (w1 := World _ _ _ _ _).
      rewrite bind_run, (copy2_run folder p d w1 content Hpe Hdir).
      destruct (io_error env op_copy p).
      { exists w1, content. cbn. repeat split; try done. by rewrite insert_id. }
      set (w2 := set_backup_dir _ w1).
      rewrite bind_run, (hash_run p d w2 Hpe).
      destruct (io_error env op_read p).
      { exists w2, (<[p := d]> content). cbn. repeat split; done. }
      cbn [fmap option_fmap option_map].
      destruct (IH (<[p := md5 d]> acc) (S n) w2 (<[p := d]> content) Hnd Hrest)
        as (w' & content' & Hrun & Hs & Hm & Ht & Hb & Hc).
      { cbn. apply lookup_insert_eq. }
      exists w', content'. rewrite Hrun.
      pose proof (regular_files_notin rest p Hp) as Hnone.
      split.
      { destruct (full_loop_fault env rest); [done|].
        do 3 f_equal.
        - rewrite fmap_insert. rewrite <- insert_union_l.
          rewrite <- insert_union_r; [done|]. by rewrite lookup_fmap, Hnone.
        - rewrite map_size_insert_None by done. lia. }
      repeat split; try done.
      { rewrite Hb. cbn. by rewrite insert_insert_eq. }
      intros Hnf. rewrite (Hc Hnf).
      rewrite <- insert_union_l. by rewrite <- insert_union_r.
    + rewrite regular_files_cons_dir by done.
      destruct (IH acc n w content Hnd Hrest Hdir)
        as (w' & content' & Hrun & Hrem).
      by exists w', content'.
Qed.

Lemma is_new_or_modified_differs last p d :
  is_new_or_modified last p (md5 d) = true ↔ differs md5 last (p, d).
Proof.
  unfold is_new_or_modified, differs. cbn.
  destruct (last !! p) as [h|]; [|done].
  destruct (String.eqb_spec h (md5 d)) as [->|Hne]; cbn; split; try done.
  intros _ [=]. done.
Qed.

Lemma changed_files_cons_changed last (walk : list (string * entry)) p d :
  differs md5 last (p, d) →
  changed_files md5 last (list_to_map ((p, RegularFile d) :: walk))
  = <[p := d]> (changed_files md5 last (list_to_map walk)).
Proof.
  intros H. unfold changed_files. rewrite regular_files_cons_file.
  by apply map_filter_insert_True.
Qed.

Lemma changed_files_cons_same last (walk : list (string * entry)) p d :
  p ∉ walk.*1 →
  ¬ differs md5 last (p, d) →
  changed_files md5 last (list_to_map ((p, RegularFile d) :: walk))
  = changed_files md5 last (list_to_map walk).
Proof.
  intros Hp H. unfold changed_files. rewrite regular_files_cons_file.
  apply map_filter_insert_not'; [done|].
  intros y Hy. by rewrite regular_files_notin in Hy.
Qed.

Lemma changed_files_cons_dir last (walk : list (string * entry)) p :
  p ∉ walk.*1 →
  changed_files md5 last (list_to_map ((p, Directory) :: walk))
  = changed_files md5 last (list_to_map walk).
Proof. intros Hp. unfold changed_files. by rewrite regular_files_cons_dir. Qed.

Lemma changed_files_notin last (walk : list (string * entry)) p :
  p ∉ walk.*1 → changed_files md5 last (list_to_map walk) !! p = None.
Proof.
  intros Hp. unfold changed_files. apply map_lookup_filter_None. left.
  by apply regular_files_notin.
Qed.

Lemma delta_loop_spec folder last (walk : list (string * entry)) :
  ∀ acc n w content,
  NoDup walk.*1 →
  (∀ p e, (p, e) ∈ walk → source_dir w !! p = Some e) →
  backup_dir w !! folder = Some content →
  ∃ w' content',
    delta_loop md5 env folder last walk acc n w
    = (match delta_loop_fault md5 env last walk with
       | Some x => Raise x
       | None =>
           Return ((md5 <$> changed_files md5 last (list_to_map walk)) ∪ acc,
                   size (changed_files md5 last (list_to_map walk)) + n)
       end, w')
    ∧ source_dir w' = source_dir w
    ∧ manifest_file w' = manifest_file w
    ∧ total w' = total w
    ∧ backup_dir w' = <[folder := content']> (backup_dir w)
    ∧ (delta_loop_fault md5 env last walk = None →
       content' = changed_files md5 last (list_to_map walk) ∪ content).
Proof.
  induction walk as [|[p e] rest IH]; intros acc n w content Hnd Hsrc Hdir.
  - exists w, content. cbn. unfold changed_files, regular_files.
    rewrite omap_empty, map_filter_empty, fmap_empty, map_size_empty,
      !(left_id_L ∅ (∪)).
    repeat split; try done. by rewrite insert_id.
  - apply NoDup_cons in Hnd as [Hp Hnd].
    assert (Hpe : source_dir w !! p = Some e) by (apply Hsrc; left).
    assert (Hrest : ∀ q e', (q, e') ∈ rest → source_dir w !! q = Some e')
      by (intros q e' Hq; apply Hsrc; by right).
    destruct e as [d|]; cbn [delta_loop delta_loop_fault is_file].
    + rewrite bind_run. cbn [update_description].
      set (w1 := World _ _ _ _ _).
      rewrite bind_run, (hash_run p d w1 Hpe).
      unfold file_fault; cbn [List.find].
      destruct (io_error env op_read p).
      { exists w1, content. cbn. repeat split; try done. by rewrite insert_id. }
      destruct (is_new_or_modified last p (md5 d)) eqn:Hnew.
      * apply is_new_or_modified_differs in Hnew.
        rewrite changed_files_cons_changed by done.
        cbn [List.find].
        rewrite bind_run, (mkdir_parent_run folder p w1 content Hdir).
        destruct (io_error env op_mkdir p).
        { exists w1, content. cbn. repeat split; try done. by rewrite insert_id. }
        rewrite bind_run. cbn [update_description].
        set (w2 := World _ _ _ _ _).
        rewrite bind_run, (copy2_run folder p d w2 content Hpe Hdir).
        destruct (io_error env op_copy p).
        { exists w2, content. cbn. repeat split; try done. by rewrite insert_id. }
        set (w3 := set_backup_dir _ w2).
        cbn [fmap option_fmap option_map].
        destruct (IH (<[p := md5 d]> acc) (S n) w3 (<[p := d]> content) Hnd Hrest)
          as (w' & content' & Hrun & Hs & Hm & Ht & Hb & Hc).
        { cbn. apply lookup_insert_eq. }
        exists w', content'. rewrite Hrun.
        pose proof (changed_files_notin last rest p Hp) as Hnone.
        split.
        { destruct (delta_loop_fault md5 env last rest); [done|].
          do 3 f_equal.
          - rewrite fmap_insert. rewrite <- insert_union_l.
            rewrite <- insert_union_r; [done|]. by rewrite lookup_fmap, Hnone.
          - rewrite map_size_insert_None by done. lia. }
        repeat split; try done.
        { rewrite Hb. cbn. by rewrite insert_insert_eq. }
        intros Hnf. rewrite (Hc Hnf).
        rewrite <- insert_union_l. by rewrite <- insert_union_r.
      * assert (¬ differs md5 last (p, d)) as Hsame.
        { rewrite <- is_new_or_modified_differs. by rewrite Hnew. }
        rewrite changed_files_cons_same by done.
        cbn [List.find fmap option_fmap option_map].
        destruct (IH acc n w1 content Hnd Hrest Hdir)
          as (w' & content' & Hrun & Hrem).
        by exists w', content'.
    + rewrite changed_files_cons_dir by done.
      destruct (IH acc n w content Hnd Hrest Hdir)
        as (w' & content' & Hrun & Hrem).
      by exists w', content'.
Qed.

Lemma mkdir_run folder w :
  ∃ w1, mkdir folder w = (Return (), w1)
    ∧ source_dir w1 = source_dir w
    ∧ manifest_file w1 = manifest_file w
    ∧ backup_dir w1 !! folder = Some (default ∅ (backup_dir w !! folder))
    ∧ backup_dir w1
      = <[folder := default ∅ (backup_dir w !! folder)]> (backup_dir w).
Proof.
  unfold mkdir. destruct (backup_dir w !! folder) as [c|] eqn:Hf.
  - exists w. cbn. repeat split; try done. by rewrite insert_id.
  - eexists. split; [done|]. cbn. repeat split; try done. apply lookup_insert_eq.
Qed.

Lemma load_run w : _load_manifest w = (Return (stored_records w), w).
Proof.
  unfold _load_manifest, stored_records.
  by destruct (manifest_file w) as [[?|]|].
Qed.

Lemma truthy_spec (d : gmap string string) : truthy d = true ↔ d ≠ ∅.
Proof.
  unfold truthy. rewrite <- (map_to_list_empty_iff d).
  by destruct (map_to_list d).
Qed.

Lemma walk_in_source (w : world) p e :
  (p, e) ∈ map_to_list (source_dir w) → source_dir w !! p = Some e.
Proof. by rewrite elem_of_map_to_list. Qed.

Lemma cleanup_run {A} folder x w :
  ∃ w',
    (update_description ("[bold red]Backup failed: " +:+ str_exn x) ;;
     rmtree folder true ;;
     raise x) w = (@Raise A x, w')
    ∧ source_dir w' = source_dir w
    ∧ manifest_file w' = manifest_file w
    ∧ backup_dir w' = delete folder (backup_dir w).
Proof.
  rewrite bind_run. cbn [update_description]. rewrite bind_run.
  unfold rmtree. cbn [backup_dir].
  destruct (backup_dir w !! folder) eqn:Hf.
  - eexists. split; [done|]. by cbn.
  - eexists. split; [done|]. cbn. by rewrite delete_id.
Qed.

(** The run ends in the handler with exception [x] from world [w]: the
    goal's run is rewritten to the handler's, whose folder is gone. *)
Ltac ends_in_handler T folder x w Hfolder :=
  let w' := fresh "w'" in
  let Hh := fresh "Hh" in
  let Hs := fresh "Hs" in
  let Hm := fresh "Hm" in
  let Hb := fresh "Hb" in
  destruct (cleanup_run (A := T) folder x w) as (w' & Hh & Hs & Hm & Hb);
  exists w'; rewrite Hh, Hs, Hm, Hb; cbn [backup_dir set_manifest_file];
  rewrite Hfolder, delete_insert_eq.

Lemma full_backup_run w :
  let folder := "full_backup_" +:+ now env in
  let src := source_dir w in
  ∃ w', source_dir w' = src ∧
    match full_loop_fault env (map_to_list src) with
    | Some x =>
        full_backup md5 env w = (Raise x, w')
        ∧ backup_dir w' = delete folder (backup_dir w)
        ∧ manifest_file w' = manifest_file w
    | None =>
        match save_error env with
        | None =>
            full_backup md5 env w
            = (Return (path_of env folder, size (regular_files src)), w')
            ∧ backup_dir w'
              = <[folder := regular_files src ∪ default ∅ (backup_dir w !! folder)]>
                  (backup_dir w)
            ∧ manifest_file w'
              = Some (Json (stored_records w ++ [full_record md5 env src]))
        | Some f =>
            full_backup md5 env w = (Raise (SaveError f), w')
            ∧ backup_dir w' = delete folder (backup_dir w)
            ∧ manifest_file w' = after_failed_save f (manifest_file w)
        end
    end.
Proof.
  intros folder src. unfold full_backup. cbn zeta. fold folder.
  destruct (mkdir_run folder w) as (w1 & Hmk & Hs1 & Hm1 & Hf1 & Hb1).
  rewrite bind_run, Hmk, bind_run, load_run, bind_run.
  cbn [_count_files]. rewrite bind_run. cbn [update_total].
  set (w2 := World _ _ _ _ _).
  unfold try_except. rewrite bind_run. cbn [rglob].
  destruct (full_loop_spec folder (map_to_list (source_dir w2)) ∅ 0 w2
              (default ∅ (backup_dir w !! folder)))
    as (w3 & content & Hrun & Hs3 & Hm3 & Ht3 & Hb3 & Hc3).
  { apply NoDup_fst_map_to_list. }
  { apply walk_in_source. }
  { done. }
  assert (Hs2 : source_dir w2 = src) by done.
  assert (Hb2 : backup_dir w2 = backup_dir w1) by done.
  assert (Hm2 : manifest_file w2 = manifest_file w) by done.
  assert (Hrec : stored_records w1 = stored_records w)
    by (unfold stored_records; by rewrite Hm1).
  clearbody w2.
  rewrite bind_run, Hrun, Hrec. rewrite Hs2, list_to_map_to_list in *.
  rewrite Hb2, Hb1, insert_insert_eq in Hb3. rewrite Hm2 in Hm3.
  assert (Hf3 : backup_dir w3 !! folder = Some content)
    by (rewrite Hb3; apply lookup_insert_eq).
  clear Hrun.
  destruct (full_loop_fault env (map_to_list src)) as [x|].
  - ends_in_handler (string * nat)%type folder x w3 Hb3. done.
  - specialize (Hc3 eq_refl). subst content.
    cbn [fst snd]. rewrite bind_run. unfold _save_manifest.
    rewrite (right_id_L ∅ (∪)), Nat.add_0_r.
    destruct (save_error env) as [[|]|].
    + ends_in_handler (string * nat)%type folder (SaveError open_fails) w3 Hb3.
      done.
    + ends_in_handler (string * nat)%type folder (SaveError dump_fails)
        (set_manifest_file (Some Unparsable) w3) Hb3.
      done.
    + rewrite bind_run. cbn [update_description].
      eexists. split; [|split; [done|]]; cbn; [done|].
      split; [done|]. by unfold full_record.
Qed.

Lemma delta_backup_run kind prefix manifest reference w :
  let folder := prefix +:+ now env in
  let src := source_dir w in
  let changed := changed_files md5 (files reference) src in
  ∃ w', source_dir w' = src ∧
    match delta_loop_fault md5 env (files reference) (map_to_list src) with
    | Some x =>
        delta_backup md5 env kind prefix manifest reference w = (Raise x, w')
        ∧ backup_dir w' = delete folder (backup_dir w)
        ∧ manifest_file w' = manifest_file w
    | None =>
        if decide (changed = ∅) then
          delta_backup md5 env kind prefix manifest reference w
          = (Return (None, 0), w')
          ∧ backup_dir w' = delete folder (backup_dir w)
          ∧ manifest_file w' = manifest_file w
          ∧ description w' = "[bold yellow]No changes detected, backup skipped"
        else
          match save_error env with
          | None =>
              delta_backup md5 env kind prefix manifest reference w
              = (Return (Some (path_of env folder), size changed), w')
              ∧ backup_dir w'
                = <[folder := changed ∪ default ∅ (backup_dir w !! folder)]>
                    (backup_dir w)
              ∧ manifest_file w'
                = Some (Json (manifest ++
                              [delta_record md5 env kind prefix reference src]))
          | Some f =>
              delta_backup md5 env kind prefix manifest reference w
              = (Raise (SaveError f), w')
              ∧ backup_dir w' = delete folder (backup_dir w)
              ∧ manifest_file w' = after_failed_save f (manifest_file w)
          end
    end.
Proof.
  intros folder src changed. unfold delta_backup. cbn zeta. fold folder.
  destruct (mkdir_run folder w) as (w1 & Hmk & Hs1 & Hm1 & Hf1 & Hb1).
  rewrite bind_run, Hmk, bind_run.
  cbn [_count_files]. rewrite bind_run. cbn [update_total].
  set (w2 := World _ _ _ _ _).
  unfold try_except. rewrite bind_run. cbn [rglob].
  destruct (delta_loop_spec folder (files reference)
              (map_to_list (source_dir w2)) ∅ 0 w2
              (default ∅ (backup_dir w !! folder)))
    as (w3 & content & Hrun & Hs3 & Hm3 & Ht3 & Hb3 & Hc3).
  { apply NoDup_fst_map_to_list. }
  { apply walk_in_source. }
  { done. }
  assert (Hs2 : source_dir w2 = src) by done.
  assert (Hb2 : backup_dir w2 = backup_dir w1) by done.
  assert (Hm2 : manifest_file w2 = manifest_file w) by done.
  clearbody w2.
  rewrite bind_run, Hrun. rewrite Hs2, list_to_map_to_list in *.
  rewrite Hb2, Hb1, insert_insert_eq in Hb3. rewrite Hm2 in Hm3.
  assert (Hf3 : backup_dir w3 !! folder = Some content)
    by (rewrite Hb3; apply lookup_insert_eq).
  clear Hrun. fold changed in Hc3 |- *.
  destruct (delta_loop_fault md5 env (files reference) (map_to_list src)) as [x|].
  - ends_in_handler (option string * nat)%type folder x w3 Hb3. done.
  - specialize (Hc3 eq_refl). subst content.
    cbn [fst snd]. rewrite (right_id_L ∅ (∪)), Nat.add_0_r.
    destruct (decide (changed = ∅)) as [He|Hne].
    + assert (truthy (md5 <$> changed) = false) as ->.
      { apply not_true_iff_false. rewrite truthy_spec, He, fmap_empty. tauto. }
      rewrite bind_run. cbn [update_description]. rewrite bind_run.
      unfold rmtree. cbn [backup_dir]. rewrite Hf3.
      eexists. split; [|split; [done|]]; cbn; [done|].
      by rewrite Hb3, delete_insert_eq.
    + assert (truthy (md5 <$> changed) = true) as ->.
      { rewrite truthy_spec, fmap_empty_iff. done. }
      rewrite bind_run. unfold _save_manifest.
      destruct (save_error env) as [[|]|].
      * ends_in_handler (option string * nat)%type folder
          (SaveError open_fails) w3 Hb3.
        done.
      * ends_in_handler (option string * nat)%type folder
          (SaveError dump_fails) (set_manifest_file (Some Unparsable) w3) Hb3.
        done.
      * rewrite bind_run. cbn [update_description].
        eexists. split; [|split; [done|]]; cbn; [done|].
        split; [done|]. by unfold delta_record.
Qed.

Lemma full_loop_fault_ok (src : gmap string entry) :
  io_ok env [op_mkdir; op_copy; op_read] (regular_files src) →
  full_loop_fault env (map_to_list src) = None.
Proof.
  intros Hok. apply full_loop_fault_None. intros p d op Hin.
  apply elem_of_map_to_list, regular_files_lookup in Hin.
  apply Hok; [by exists d|]. destruct op; apply list_elem_of_In; cbn; tauto.
Qed.

Lemma changed_files_lookup last (src : gmap string entry) p d :
  changed_files md5 last src !! p = Some d
  ↔ src !! p = Some (RegularFile d)
    ∧ (last !! p = None ∨ ∃ h, last !! p = Some h ∧ h ≠ md5 d).
Proof.
  unfold changed_files. rewrite map_lookup_filter_Some, regular_files_lookup.
  unfold differs. cbn. split; intros [Hs Hd]; (split; [done|]).
  - destruct (last !! p) as [h|]; [|by left].
    right. exists h. split; [done|]. congruence.
  - destruct Hd as [->|(h & -> & Hne)]; [done|congruence].
Qed.

Lemma delta_loop_fault_ok last (src : gmap string entry) :
  io_ok env [op_read] (regular_files src) →
  io_ok env [op_mkdir; op_copy] (changed_files md5 last src) →
  delta_loop_fault md5 env last (map_to_list src) = None.
Proof.
  intros Hread Hcopy. apply delta_loop_fault_None. intros p d Hin.
  apply elem_of_map_to_list in Hin.
  split.
  - apply Hread; [|left]. exists d. by apply regular_files_lookup.
  - intros Hnew%is_new_or_modified_differs.
    assert (is_Some (changed_files md5 last src !! p)) as Hch.
    { exists d. unfold changed_files. rewrite map_lookup_filter_Some.
      split; [by apply regular_files_lookup|done]. }
    split; apply Hcopy; try done; apply list_elem_of_In; cbn; tauto.
Qed.

Lemma full_loop_refused_fault (src : gmap string entry) :
  full_loop_refused env src →
  ∃ x, full_loop_fault env (map_to_list src) = Some x.
Proof.
  intros (p & d & op & Hs & Hio).
  destruct (full_loop_fault env (map_to_list src)) as [x|] eqn:Hf; [by exists x|].
  rewrite full_loop_fault_None in Hf.
  rewrite (Hf p d op) in Hio; [done|]. by apply elem_of_map_to_list.
Qed.

Lemma delta_loop_refused_fault last (src : gmap string entry) :
  delta_loop_refused md5 env last src →
  ∃ x, delta_loop_fault md5 env last (map_to_list src) = Some x.
Proof.
  intros (p & d & Hs & Hio).
  destruct (delta_loop_fault md5 env last (map_to_list src)) as [x|] eqn:Hf;
    [by exists x|].
  rewrite delta_loop_fault_None in Hf.
  destruct (Hf p d) as [Hr Hmc]; [by apply elem_of_map_to_list|].
  destruct Hio as [Hio|[Hd Hio]]; [congruence|].
  apply is_new_or_modified_differs in Hd. destruct (Hmc Hd) as [Hm Hc].
  destruct Hio; congruence.
Qed.

Lemma last_of_snoc (older : list backup_info) ref first rest :
  first :: rest = older ++ [ref] → List.last rest first = ref.
Proof.
  destruct older as [|a older]; cbn; intros [= -> ->]; [done|].
  apply List.last_last.
Qed.

Lemma find_full_none (manifest : list backup_info) :
  Forall (λ b, type b ≠ "full") manifest →
  List.find is_full manifest = None.
Proof.
  induction 1 as [|b l Hb _ IH]; [done|]. cbn. unfold is_full at 1.
  by destruct (String.eqb_spec (type b) "full").
Qed.

Lemma find_app_none {A} (f : A → bool) (l1 l2 : list A) :
  List.find f l1 = None → List.find f (l1 ++ l2) = List.find f l2.
Proof.
  induction l1 as [|a l1 IH]; [done|]. cbn. destruct (f a); [done|apply IH].
Qed.

Lemma find_nearest_full (manifest : list backup_info) ref :
  nearest_full manifest ref →
  List.find is_full (reverse manifest) = Some ref.
Proof.
  intros (older & newer & -> & Hfull & Hnewer).
  rewrite reverse_app, reverse_cons, <- (assoc_L (++)).
  rewrite find_app_none.
  - cbn. unfold is_full at 1. by rewrite Hfull.
  - apply find_full_none. by apply Forall_reverse.
Qed.

Lemma incremental_backup_unfold w older ref :
  stored_records w = older ++ [ref] →
  incremental_backup md5 env w
  = delta_backup md5 env "incremental" "incr_backup_" (older ++ [ref]) ref w.
Proof.
  intros Hst. unfold incremental_backup. rewrite bind_run, load_run, Hst.
  destruct (older ++ [ref]) as [|first rest] eqn:Hm.
  - by destruct older.
  - by rewrite (last_of_snoc older ref first rest).
Qed.

Lemma differential_backup_unfold w ref :
  nearest_full (stored_records w) ref →
  differential_backup md5 env w
  = delta_backup md5 env "differential" "diff_backup_" (stored_records w) ref w.
Proof.
  intros Hnf. unfold differential_backup. rewrite bind_run, load_run.
  rewrite (find_nearest_full _ _ Hnf).
  destruct Hnf as (older & newer & Hm & _). rewrite Hm.
  by destruct older.
Qed.

(** The world after a run that only reports through the progress task. *)
Lemma incremental_backup_skips w :
  stored_records w = [] →
  incremental_backup md5 env w
  = (Return (None, 0),
     World (source_dir w) (backup_dir w) (manifest_file w)
       "[bold red]No backup found. Incremental backup skipped." (total w)).
Proof.
  intros Hst. unfold incremental_backup. by rewrite bind_run, load_run, Hst.
Qed.

Lemma differential_backup_skips w :
  Forall (λ b, type b ≠ "full") (stored_records w) →
  ∃ d,
    differential_backup md5 env w
    = (Return (None, 0),
       World (source_dir w) (backup_dir w) (manifest_file w) d (total w))
    ∧ (d = "[bold red]No full backup found. Differential backup skipped."
       ∨ d = "[bold yellow]No full backup found. Differential backup skipped.").
Proof.
  intros Hnf. unfold differential_backup. rewrite bind_run, load_run.
  destruct (stored_records w) as [|b l] eqn:Hst.
  - eexists. split; [done|]. by left.
  - rewrite find_full_none by by apply Forall_reverse.
    eexists. split; [done|]. by right.
Qed.

Lemma delta_backup_completes kind prefix manifest ref w :
  let folder := prefix +:+ now env in
  let src := source_dir w in
  let changed := changed_files md5 (files ref) src in
  io_ok env [op_read] (regular_files src) →
  io_ok env [op_mkdir; op_copy] changed →
  save_error env = None →
  changed ≠ ∅ →
  ∃ w',
    delta_backup md5 env kind prefix manifest ref w
    = (Return (Some (path_of env folder), size changed), w')
    ∧ manifest_file w'
      = Some (Json (manifest ++ [delta_record md5 env kind prefix ref src]))
    ∧ backup_dir w' !! folder
      = Some (changed ∪ default ∅ (backup_dir w !! folder)).
Proof.
  cbn zeta. intros Hread Hcopy Hsave Hne.
  destruct (delta_backup_run kind prefix manifest ref w) as (w' & _ & Hcase).
  rewrite (delta_loop_fault_ok _ _ Hread Hcopy) in Hcase.
  destruct (decide _); [done|]. rewrite Hsave in Hcase.
  destruct Hcase as (Hrun & Hb & Hm).
  exists w'. split; [done|]. split; [done|].
  rewrite Hb. apply lookup_insert_eq.
Qed.

Lemma delta_backup_no_changes kind prefix manifest ref w :
  let folder := prefix +:+ now env in
  let src := source_dir w in
  io_ok env [op_read] (regular_files src) →
  changed_files md5 (files ref) src = ∅ →
  ∃ w',
    delta_backup md5 env kind prefix manifest ref w = (Return (None, 0), w')
    ∧ backup_dir w' !! folder = None
    ∧ manifest_file w' = manifest_file w
    ∧ description w' = "[bold yellow]No changes detected, backup skipped".
Proof.
  cbn zeta. intros Hread Hnone.
  destruct (delta_backup_run kind prefix manifest ref w) as (w' & _ & Hcase).
  rewrite delta_loop_fault_ok in Hcase; [|done|].
  - rewrite decide_True in Hcase by done.
    destruct Hcase as (Hrun & Hb & Hm & Hd).
    exists w'. split; [done|]. split; [|done].
    rewrite Hb. apply lookup_delete_eq.
  - rewrite Hnone. intros p op [d Hd]. by rewrite lookup_empty in Hd.
Qed.

Lemma delta_backup_loop_raises kind prefix manifest ref w :
  delta_loop_refused md5 env (files ref) (source_dir w) →
  ∃ op p w',
    delta_backup md5 env kind prefix manifest ref w = (Raise (OSError op p), w')
    ∧ io_error env op p = true
    ∧ backup_dir w' !! (prefix +:+ now env) = None
    ∧ manifest_file w' = manifest_file w.
Proof.
  intros [x Hx]%delta_loop_refused_fault.
  destruct (delta_backup_run kind prefix manifest ref w) as (w' & _ & Hcase).
  rewrite Hx in Hcase. destruct Hcase as (Hrun & Hb & Hm).
  apply delta_loop_fault_Some in Hx as (op & p & d & -> & _ & Hio).
  exists op, p, w'. split; [done|]. split; [done|]. split; [|done].
  rewrite Hb. apply lookup_delete_eq.
Qed.

Lemma delta_backup_save_raises kind prefix manifest ref w f :
  let src := source_dir w in
  let changed := changed_files md5 (files ref) src in
  io_ok env [op_read] (regular_files src) →
  io_ok env [op_mkdir; op_copy] changed →
  changed ≠ ∅ →
  save_error env = Some f →
  ∃ w',
    delta_backup md5 env kind prefix manifest ref w = (Raise (SaveError f), w')
    ∧ backup_dir w' !! (prefix +:+ now env) = None
    ∧ manifest_file w' = after_failed_save f (manifest_file w).
Proof.
  cbn zeta. intros Hread Hcopy Hne Hsave.
  destruct (delta_backup_run kind prefix manifest ref w) as (w' & _ & Hcase).
  rewrite (delta_loop_fault_ok _ _ Hread Hcopy) in Hcase.
  destruct (decide _); [done|]. rewrite Hsave in Hcase.
  destruct Hcase as (Hrun & Hb & Hm).
  exists w'. split; [done|]. split; [|done].
  rewrite Hb. apply lookup_delete_eq.
Qed.

Lemma delta_backup_returns kind prefix manifest ref w p n w' :
  delta_backup md5 env kind prefix manifest ref w = (Return (Some p, n), w') →
  p = path_of env (prefix +:+ now env)
  ∧ is_Some (backup_dir w' !! (prefix +:+ now env))
  ∧ ∃ r, last (stored_records w') = Some r
         ∧ path r = p ∧ timestamp r = now env ∧ type r = kind.
Proof.
  intros Hrun.
  destruct (delta_backup_run kind prefix manifest ref w) as (w'' & _ & Hcase).
  destruct (delta_loop_fault _ _ _ _); [destruct Hcase; congruence|].
  destruct (decide _); [destruct Hcase; congruence|].
  destruct (save_error env); [destruct Hcase; congruence|].
  destruct Hcase as (Hrun' & Hb & Hm). rewrite Hrun' in Hrun.
  injection Hrun as <- _ <-.
  split; [done|]. split; [rewrite Hb, lookup_insert_eq; by eexists|].
  eexists. unfold stored_records. rewrite Hm, last_snoc. done.
Qed.

Lemma manifest_cases (manifest : list backup_info) :
  Forall (λ b, type b ≠ "full") manifest ∨ ∃ ref, nearest_full manifest ref.
Proof.
  induction manifest as [|b l IH] using rev_ind; [by left|].
  destruct (decide (type b = "full")) as [Hb|Hb].
  - right. exists b, l, []. by rewrite Forall_nil.
  - destruct IH as [IH|(ref & older & newer & -> & Hf & Hn)].
    + left. apply Forall_app. by rewrite Forall_singleton.
    + right. exists ref, older, (newer ++ [b]).
      rewrite <- (assoc_L (++)). split; [done|]. split; [done|].
      apply Forall_app. by rewrite Forall_singleton.
Qed.

(** ** The claims *)

(** C1.  A full run on which no call is refused and the save succeeds
    returns, and afterwards: every regular file of the source is in the
    run's folder under its relative path with its content; the manifest is
    the one loaded followed by one record, [full_record], which is computed
    from the source and the clock alone (no earlier record or folder enters
    it); the record's [files] has an entry exactly for the regular files of
    the source, each the digest of the copy in the folder; the record is of
    type full and has no parent. *)
Theorem full_backup_snapshot w :
  let folder := "full_backup_" +:+ now env in
  let src := source_dir w in
  let record := full_record md5 env src in
  io_ok env [op_mkdir; op_copy; op_read] (regular_files src) →
  save_error env = None →
  ∃ w' copied,
    full_backup md5 env w
    = (Return (path_of env folder, size (regular_files src)), w')
    ∧ backup_dir w' !! folder = Some copied
    ∧ (∀ p d, src !! p = Some (RegularFile d) → copied !! p = Some d)
    ∧ manifest_file w' = Some (Json (stored_records w ++ [record]))
    ∧ (∀ p, is_Some (files record !! p) ↔ ∃ d, src !! p = Some (RegularFile d))
    ∧ (∀ p h, files record !! p = Some h →
              ∃ d, copied !! p = Some d ∧ h = md5 d)
    ∧ type record = "full"
    ∧ parent record = None.
Proof.
  cbn zeta. intros Hok Hsave.
  destruct (full_backup_run w) as (w' & _ & Hcase).
  rewrite (full_loop_fault_ok _ Hok), Hsave in Hcase.
  destruct Hcase as (Hrun & Hb & Hm).
  exists w', (regular_files (source_dir w)
              ∪ default ∅ (backup_dir w !! ("full_backup_" +:+ now env))).
  split; [done|]. split; [rewrite Hb; apply lookup_insert_eq|].
  split.
  { intros p d Hp. apply lookup_union_Some_l. by apply regular_files_lookup. }
  split; [done|]. split.
  { intros p. cbn [files full_record]. rewrite lookup_fmap, fmap_is_Some.
    split; intros [d Hd]; exists d; by apply regular_files_lookup. }
  split; [|done].
  intros p h. cbn [files full_record]. rewrite lookup_fmap, fmap_Some.
  intros (d & Hd & ->). exists d. split; [|done].
  by apply lookup_union_Some_l.
Qed.

(** C2.  With a manifest whose most recent record is [ref], of whatever
    type, an incremental run on which no call is refused, the save succeeds
    and some file is new or changed returns, and afterwards: a regular file
    of the source is in [changed], the files copied into the run's folder,
    exactly when its path is absent from [files ref] or mapped there to
    another digest; [files] of the appended record has the digests of
    exactly those files; the record is of type incremental and its parent is
    [ref]'s timestamp. *)
Theorem incremental_against_latest_record w older ref :
  let folder := "incr_backup_" +:+ now env in
  let src := source_dir w in
  let changed := changed_files md5 (files ref) src in
  let record := delta_record md5 env "incremental" "incr_backup_" ref src in
  stored_records w = older ++ [ref] →
  io_ok env [op_read] (regular_files src) →
  io_ok env [op_mkdir; op_copy] changed →
  save_error env = None →
  changed ≠ ∅ →
  ∃ w',
    incremental_backup md5 env w
    = (Return (Some (path_of env folder), size changed), w')
    ∧ manifest_file w' = Some (Json (older ++ [ref] ++ [record]))
    ∧ backup_dir w' !! folder
      = Some (changed ∪ default ∅ (backup_dir w !! folder))
    ∧ (∀ p d, changed !! p = Some d
              ↔ src !! p = Some (RegularFile d)
                ∧ (files ref !! p = None
                   ∨ ∃ h, files ref !! p = Some h ∧ h ≠ md5 d))
    ∧ (∀ p, files record !! p = md5 <$> changed !! p)
    ∧ type record = "incremental"
    ∧ parent record = Some (timestamp ref).
Proof.
  cbn zeta. intros Hst Hread Hcopy Hsave Hne.
  rewrite (incremental_backup_unfold w older ref Hst).
  destruct (delta_backup_completes "incremental" "incr_backup_"
              (older ++ [ref]) ref w Hread Hcopy Hsave Hne)
    as (w' & Hrun & Hm & Hb).
  exists w'. split; [done|]. split; [by rewrite (assoc_L (++))|].
  split; [done|]. split; [apply changed_files_lookup|].
  split; [|done]. intros p. cbn [files delta_record]. apply lookup_fmap.
Qed.

(** C3.  With a manifest in which [ref] is the nearest full record searching
    backward, whatever follows it, a differential run on which no call is
    refused, the save succeeds and some file is new or changed returns, and
    afterwards: the files copied are exactly those whose path is absent
    from [files ref] or mapped there to another digest; the appended record
    has their digests, is of type differential, and its parent is [ref]'s
    timestamp. *)
Theorem differential_against_nearest_full w ref :
  let folder := "diff_backup_" +:+ now env in
  let src := source_dir w in
  let changed := changed_files md5 (files ref) src in
  let record := delta_record md5 env "differential" "diff_backup_" ref src in
  nearest_full (stored_records w) ref →
  io_ok env [op_read] (regular_files src) →
  io_ok env [op_mkdir; op_copy] changed →
  save_error env = None →
  changed ≠ ∅ →
  ∃ w',
    differential_backup md5 env w
    = (Return (Some (path_of env folder), size changed), w')
    ∧ manifest_file w' = Some (Json (stored_records w ++ [record]))
    ∧ backup_dir w' !! folder
      = Some (changed ∪ default ∅ (backup_dir w !! folder))
    ∧ (∀ p d, changed !! p = Some d
              ↔ src !! p = Some (RegularFile d)
                ∧ (files ref !! p = None
                   ∨ ∃ h, files ref !! p = Some h ∧ h ≠ md5 d))
    ∧ (∀ p, files record !! p = md5 <$> changed !! p)
    ∧ type record = "differential"
    ∧ parent record = Some (timestamp ref).
Proof.
  cbn zeta. intros Hnf Hread Hcopy Hsave Hne.
  rewrite (differential_backup_unfold w ref Hnf).
  destruct (delta_backup_completes "differential" "diff_backup_"
              (stored_records w) ref w Hread Hcopy Hsave Hne)
    as (w' & Hrun & Hm & Hb).
  exists w'. split; [done|]. split; [done|].
  split; [done|]. split; [apply changed_files_lookup|].
  split; [|done]. intros p. cbn [files delta_record]. apply lookup_fmap.
Qed.

(** C4.  For each strategy: when a call of the walk, hash and copy loop is
    refused, the run raises the error of a refused call to its caller, and
    afterwards the run's folder does not exist and the manifest file is what
    it was before the run. *)
Theorem loop_failure_cleans_up w :
  (full_loop_refused env (source_dir w) →
   ∃ op p w',
     full_backup md5 env w = (Raise (OSError op p), w')
     ∧ io_error env op p = true
     ∧ backup_dir w' !! ("full_backup_" +:+ now env) = None
     ∧ manifest_file w' = manifest_file w)
  ∧ (∀ older ref,
       stored_records w = older ++ [ref] →
       delta_loop_refused md5 env (files ref) (source_dir w) →
       ∃ op p w',
         incremental_backup md5 env w = (Raise (OSError op p), w')
         ∧ io_error env op p = true
         ∧ backup_dir w' !! ("incr_backup_" +:+ now env) = None
         ∧ manifest_file w' = manifest_file w)
  ∧ (∀ ref,
       nearest_full (stored_records w) ref →
       delta_loop_refused md5 env (files ref) (source_dir w) →
       ∃ op p w',
         differential_backup md5 env w = (Raise (OSError op p), w')
         ∧ io_error env op p = true
         ∧ backup_dir w' !! ("diff_backup_" +:+ now env) = None
         ∧ manifest_file w' = manifest_file w).
Proof.
  split; [|split].
  - intros [x Hx]%full_loop_refused_fault.
    destruct (full_backup_run w) as (w' & _ & Hcase).
    rewrite Hx in Hcase. destruct Hcase as (Hrun & Hb & Hm).
    apply full_loop_fault_Some in Hx as (op & p & d & -> & _ & Hio).
    exists op, p, w'. split; [done|]. split; [done|]. split; [|done].
    rewrite Hb. apply lookup_delete_eq.
  - intros older ref Hst Href.
    rewrite (incremental_backup_unfold w older ref Hst).
    by apply delta_backup_loop_raises.
  - intros ref Hnf Href.
    rewrite (differential_backup_unfold w ref Hnf).
    by apply delta_backup_loop_raises.
Qed.

(** C5, as the code has it.  For each strategy: when the copy phase
    completes and the save then fails, the run raises the save's error to
    its caller; the handler that serves the loop also serves the save, so
    the run's folder does not exist afterwards; the manifest file is
    untouched when the open failed and unparsable when the dump was
    interrupted. *)
Theorem save_failure_removes_folder w f :
  save_error env = Some f →
  (io_ok env [op_mkdir; op_copy; op_read] (regular_files (source_dir w)) →
   ∃ w',
     full_backup md5 env w = (Raise (SaveError f), w')
     ∧ backup_dir w' !! ("full_backup_" +:+ now env) = None
     ∧ manifest_file w' = after_failed_save f (manifest_file w))
  ∧ (∀ older ref,
       stored_records w = older ++ [ref] →
       io_ok env [op_read] (regular_files (source_dir w)) →
       io_ok env [op_mkdir; op_copy]
         (changed_files md5 (files ref) (source_dir w)) →
       changed_files md5 (files ref) (source_dir w) ≠ ∅ →
       ∃ w',
         incremental_backup md5 env w = (Raise (SaveError f), w')
         ∧ backup_dir w' !! ("incr_backup_" +:+ now env) = None
         ∧ manifest_file w' = after_failed_save f (manifest_file w))
  ∧ (∀ ref,
       nearest_full (stored_records w) ref →
       io_ok env [op_read] (regular_files (source_dir w)) →
       io_ok env [op_mkdir; op_copy]
         (changed_files md5 (files ref) (source_dir w)) →
       changed_files md5 (files ref) (source_dir w) ≠ ∅ →
       ∃ w',
         differential_backup md5 env w = (Raise (SaveError f), w')
         ∧ backup_dir w' !! ("diff_backup_" +:+ now env) = None
         ∧ manifest_file w' = after_failed_save f (manifest_file w)).
Proof.
  intros Hsave. split; [|split].
  - intros Hok. destruct (full_backup_run w) as (w' & _ & Hcase).
    rewrite (full_loop_fault_ok _ Hok), Hsave in Hcase.
    destruct Hcase as (Hrun & Hb & Hm).
    exists w'. split; [done|]. split; [|done].
    rewrite Hb. apply lookup_delete_eq.
  - intros older ref Hst Hread Hcopy Hne.
    rewrite (incremental_backup_unfold w older ref Hst).
    by apply delta_backup_save_raises.
  - intros ref Hnf Hread Hcopy Hne.
    rewrite (differential_backup_unfold w ref Hnf).
    by apply delta_backup_save_raises.
Qed.

(** C6, as the code has it.  A save that fails raises its error to the
    caller.  The file is written in place: it is untouched when the open
    failed; when the dump was interrupted it is left unparsable, and the
    load that follows returns an empty manifest without raising, so the
    records stored before are lost, while no part of the manifest being
    saved is ever returned. *)
Theorem failed_save_in_place manifest w f :
  save_error env = Some f →
  ∃ w',
    _save_manifest env manifest w = (Raise (SaveError f), w')
    ∧ manifest_file w' = after_failed_save f (manifest_file w)
    ∧ backup_dir w' = backup_dir w
    ∧ _load_manifest w'
      = (Return (match f with
                 | open_fails => stored_records w
                 | dump_fails => []
                 end), w').
Proof.
  intros Hsave. unfold _save_manifest. rewrite Hsave.
  destruct f; (eexists; split; [done|]); rewrite load_run; done.
Qed.

(** C7.  An incremental run on an empty manifest, and a differential run on
    a manifest with no full record (an empty one included), return the
    skipped value [(None, 0)] without raising, and leave the manifest file
    as it was. *)
Theorem precondition_unmet_is_skipped w :
  (stored_records w = [] →
   ∃ w', incremental_backup md5 env w = (Return (None, 0), w')
         ∧ manifest_file w' = manifest_file w)
  ∧ (Forall (λ b, type b ≠ "full") (stored_records w) →
     ∃ w', differential_backup md5 env w = (Return (None, 0), w')
           ∧ manifest_file w' = manifest_file w).
Proof.
  split.
  - intros Hst. rewrite (incremental_backup_skips w Hst). by eexists.
  - intros Hnf. destruct (differential_backup_skips w Hnf) as (d & -> & _).
    by eexists.
Qed.

(** C8.  An incremental or differential run whose walk completes and finds
    no file new or changed relative to its reference returns the skipped
    value [(None, 0)] with the description of a skip for lack of changes;
    afterwards the run's folder does not exist and the manifest file is as
    it was. *)
Theorem no_changes_is_skipped w :
  (∀ older ref,
     stored_records w = older ++ [ref] →
     io_ok env [op_read] (regular_files (source_dir w)) →
     changed_files md5 (files ref) (source_dir w) = ∅ →
     ∃ w',
       incremental_backup md5 env w = (Return (None, 0), w')
       ∧ backup_dir w' !! ("incr_backup_" +:+ now env) = None
       ∧ manifest_file w' = manifest_file w
       ∧ description w' = "[bold yellow]No changes detected, backup skipped")
  ∧ (∀ ref,
       nearest_full (stored_records w) ref →
       io_ok env [op_read] (regular_files (source_dir w)) →
       changed_files md5 (files ref) (source_dir w) = ∅ →
       ∃ w',
         differential_backup md5 env w = (Return (None, 0), w')
         ∧ backup_dir w' !! ("diff_backup_" +:+ now env) = None
         ∧ manifest_file w' = manifest_file w
         ∧ description w' = "[bold yellow]No changes detected, backup skipped").
Proof.
  split.
  - intros older ref Hst Hread Hnone.
    rewrite (incremental_backup_unfold w older ref Hst).
    by apply delta_backup_no_changes.
  - intros ref Hnf Hread Hnone.
    rewrite (differential_backup_unfold w ref Hnf).
    by apply delta_backup_no_changes.
Qed.

(** C9, as the code has it.  Every run that completes leaves, under the
    backup root, a folder named [full_backup_<timestamp>] for a full run,
    [incr_backup_<timestamp>] for an incremental run and
    [diff_backup_<timestamp>] for a differential run; the path returned and
    the path of the appended record are that folder's, and <timestamp> is
    the record's timestamp. *)
Theorem run_folder_names w :
  (∀ p n w',
     full_backup md5 env w = (Return (p, n), w') →
     p = backup_root env +:+ "/" +:+ "full_backup_" +:+ now env
     ∧ is_Some (backup_dir w' !! ("full_backup_" +:+ now env))
     ∧ ∃ r, last (stored_records w') = Some r
            ∧ path r = p ∧ timestamp r = now env ∧ type r = "full")
  ∧ (∀ p n w',
       incremental_backup md5 env w = (Return (Some p, n), w') →
       p = backup_root env +:+ "/" +:+ "incr_backup_" +:+ now env
       ∧ is_Some (backup_dir w' !! ("incr_backup_" +:+ now env))
       ∧ ∃ r, last (stored_records w') = Some r
              ∧ path r = p ∧ timestamp r = now env ∧ type r = "incremental")
  ∧ (∀ p n w',
       differential_backup md5 env w = (Return (Some p, n), w') →
       p = backup_root env +:+ "/" +:+ "diff_backup_" +:+ now env
       ∧ is_Some (backup_dir w' !! ("diff_backup_" +:+ now env))
       ∧ ∃ r, last (stored_records w') = Some r
              ∧ path r = p ∧ timestamp r = now env ∧ type r = "differential").
Proof.
  split; [|split].
  - intros p n w' Hrun.
    destruct (full_backup_run w) as (w'' & _ & Hcase).
    destruct (full_loop_fault _ _); [destruct Hcase; congruence|].
    destruct (save_error env); [destruct Hcase; congruence|].
    destruct Hcase as (Hrun' & Hb & Hm). rewrite Hrun' in Hrun.
    injection Hrun as <- _ <-.
    split; [done|]. split; [rewrite Hb, lookup_insert_eq; by eexists|].
    eexists. unfold stored_records at 1. rewrite Hm, last_snoc. done.
  - intros p n w' Hrun.
    destruct (stored_records w) as [|b l] eqn:Hst using rev_ind.
    + by rewrite (incremental_backup_skips w Hst) in Hrun.
    + rewrite (incremental_backup_unfold w l b Hst) in Hrun.
      by apply delta_backup_returns in Hrun.
  - intros p n w' Hrun.
    destruct (manifest_cases (stored_records w)) as [Hnf|[ref Hnf]].
    + destruct (differential_backup_skips w Hnf) as (d & Hskip & _).
      by rewrite Hskip in Hrun.
    + rewrite (differential_backup_unfold w ref Hnf) in Hrun.
      by apply delta_backup_returns in Hrun.
Qed.

(** C10.  When an incremental run is skipped for an empty manifest, or a
    differential run for a manifest with no full record, the backup root is
    what it was, so no folder was created, and so is the manifest file: the
    run only sets the description of the progress task. *)
Theorem precondition_skip_touches_nothing w :
  (stored_records w = [] →
   ∃ w', incremental_backup md5 env w = (Return (None, 0), w')
         ∧ backup_dir w' = backup_dir w
         ∧ manifest_file w' = manifest_file w
         ∧ source_dir w' = source_dir w)
  ∧ (Forall (λ b, type b ≠ "full") (stored_records w) →
     ∃ w', differential_backup md5 env w = (Return (None, 0), w')
           ∧ backup_dir w' = backup_dir w
           ∧ manifest_file w' = manifest_file w
           ∧ source_dir w' = source_dir w).
Proof.
  split.
  - intros Hst. rewrite (incremental_backup_skips w Hst). by eexists.
  - intros Hnf. destruct (differential_backup_skips w Hnf) as (d & -> & _).
    by eexists.
Qed.

End Facts.

(** ** The scenario, run *)

Lemma no_io_error_ok ts ops fs : io_ok (env_at ts) ops fs.
Proof. intros p op _ _. reflexivity. Qed.

Lemma full_backup_snapshot_witness :
  ∃ w' copied,
    full_backup toy_digest (env_at "T0") world0
    = (Return ("/backups/full_backup_T0", 2), w')
    ∧ backup_dir w' !! "full_backup_T0" = Some copied
    ∧ copied !! "b.txt" = Some "world"
    ∧ manifest_file w' = Some (Json [record_full])
    ∧ files record_full !! "b.txt" = Some "H(world)"
    ∧ files record_full !! "docs" = None.
Proof.
  destruct (full_backup_snapshot toy_digest (env_at "T0") world0)
    as (w' & copied & Hrun & Hdir & Hcopied & Hm & Hdom & Hdig & _).
  - apply no_io_error_ok.
  - reflexivity.
  - exists w', copied. split; [exact Hrun|]. split; [exact Hdir|].
    split; [by apply Hcopied|]. split; [exact Hm|].
    split; by vm_compute.
Defined.

Lemma stored_records_edit2 :
  stored_records world_edit2 = [record_full] ++ [record_incr].
Proof. by vm_compute. Qed.

Lemma nearest_full_edit2 : nearest_full (stored_records world_edit2) record_full.
Proof.
  exists [], [record_incr]. split; [by vm_compute|]. split; [done|].
  apply Forall_singleton. by vm_compute.
Qed.

Lemma changed_since_incr_nonempty :
  changed_files toy_digest (files record_incr) (source_dir world_edit2) ≠ ∅.
Proof.
  intros H. apply (f_equal (λ m : gmap string string, m !! "b.txt")) in H.
  by vm_compute in H.
Qed.

Lemma changed_since_full_nonempty :
  changed_files toy_digest (files record_full) (source_dir world_edit2) ≠ ∅.
Proof.
  intros H. apply (f_equal (λ m : gmap string string, m !! "b.txt")) in H.
  by vm_compute in H.
Qed.

(** After Full(T0), an edit of [a.txt], Incremental(T1) and an edit of
    [b.txt], Incremental(T2) compares with the record of T1: only [b.txt]
    is copied. *)
Lemma incremental_against_latest_record_witness :
  ∃ w',
    incremental_backup toy_digest (env_at "T2") world_edit2
    = (Return (Some "/backups/incr_backup_T2", 1), w')
    ∧ backup_dir w' !! "incr_backup_T2" = Some {["b.txt" := "world!"]}
    ∧ ∃ record,
        manifest_file w' = Some (Json [record_full; record_incr; record])
        ∧ map_to_list (files record) = [("b.txt", "H(world!)")]
        ∧ parent record = Some "T1".
Proof.
  destruct (incremental_against_latest_record toy_digest (env_at "T2")
              world_edit2 [record_full] record_incr)
    as (w' & Hrun & Hm & Hdir & _ & _ & _ & Hparent).
  - exact stored_records_edit2.
  - apply no_io_error_ok.
  - apply no_io_error_ok.
  - reflexivity.
  - exact changed_since_incr_nonempty.
  - exists w'. split; [etransitivity; [exact Hrun|by vm_compute]|].
    split; [etransitivity; [exact Hdir|by vm_compute]|].
    exists (delta_record toy_digest (env_at "T2") "incremental" "incr_backup_"
              record_incr (source_dir world_edit2)).
    split; [exact Hm|]. split; [by vm_compute|exact Hparent].
Defined.

(** In the same state Differential(T2) compares with the record of T0: both
    files are copied. *)
Lemma differential_against_nearest_full_witness :
  ∃ w',
    differential_backup toy_digest (env_at "T2") world_edit2
    = (Return (Some "/backups/diff_backup_T2", 2), w')
    ∧ ∃ record,
        manifest_file w' = Some (Json [record_full; record_incr; record])
        ∧ map_to_list (files record)
          = [("a.txt", "H(hello!)"); ("b.txt", "H(world!)")]
        ∧ type record = "differential"
        ∧ parent record = Some "T0".
Proof.
  destruct (differential_against_nearest_full toy_digest (env_at "T2")
              world_edit2 record_full)
    as (w' & Hrun & Hm & _ & _ & _ & Htype & Hparent).
  - exact nearest_full_edit2.
  - apply no_io_error_ok.
  - apply no_io_error_ok.
  - reflexivity.
  - exact changed_since_full_nonempty.
  - exists w'. split; [etransitivity; [exact Hrun|by vm_compute]|].
    exists (delta_record toy_digest (env_at "T2") "differential" "diff_backup_"
              record_full (source_dir world_edit2)).
    split; [etransitivity; [exact Hm|by vm_compute]|].
    split; [by vm_compute|]. split; [exact Htype|exact Hparent].
Defined.

Lemma copy_refused_in_delta_loop reference :
  reference !! "b.txt" ≠ Some "H(world!)" →
  delta_loop_refused toy_digest (env_copy_refused "T2") reference
    (source_dir world_edit2).
Proof.
  intros Hne. exists "b.txt", "world!". split; [by vm_compute|].
  right. split; [exact Hne|]. by right.
Qed.

(** The copy of [b.txt] is refused in each of the three runs. *)
Lemma loop_failure_cleans_up_witness :
  (∃ op p w',
     full_backup toy_digest (env_copy_refused "T2") world_edit2
     = (Raise (OSError op p), w')
     ∧ backup_dir w' !! "full_backup_T2" = None
     ∧ manifest_file w' = manifest_file world_edit2)
  ∧ (∃ op p w',
       incremental_backup toy_digest (env_copy_refused "T2") world_edit2
       = (Raise (OSError op p), w')
       ∧ backup_dir w' !! "incr_backup_T2" = None
       ∧ manifest_file w' = manifest_file world_edit2)
  ∧ (∃ op p w',
       differential_backup toy_digest (env_copy_refused "T2") world_edit2
       = (Raise (OSError op p), w')
       ∧ backup_dir w' !! "diff_backup_T2" = None
       ∧ manifest_file w' = manifest_file world_edit2).
Proof.
  destruct (loop_failure_cleans_up toy_digest (env_copy_refused "T2") world_edit2)
    as (Hfull & Hincr & Hdiff).
  split; [|split].
  - destruct Hfull as (op & p & w' & Hrun & _ & Hdir & Hm).
    + exists "b.txt", "world!", op_copy. split; by vm_compute.
    + exists op, p, w'. exact (conj Hrun (conj Hdir Hm)).
  - destruct (Hincr [record_full] record_incr)
      as (op & p & w' & Hrun & _ & Hdir & Hm).
    + exact stored_records_edit2.
    + apply copy_refused_in_delta_loop. by vm_compute.
    + exists op, p, w'. exact (conj Hrun (conj Hdir Hm)).
  - destruct (Hdiff record_full) as (op & p & w' & Hrun & _ & Hdir & Hm).
    + exact nearest_full_edit2.
    + apply copy_refused_in_delta_loop. by vm_compute.
    + exists op, p, w'. exact (conj Hrun (conj Hdir Hm)).
Defined.

Lemma no_io_error_save_fails ts f ops fs : io_ok (env_save_fails ts f) ops fs.
Proof. intros p op _ _. reflexivity. Qed.

(** The dump of the manifest is interrupted in each of the three runs: the
    folder is gone and the manifest file is unparsable. *)
Lemma save_failure_removes_folder_witness :
  (∃ w',
     full_backup toy_digest (env_save_fails "T2" dump_fails) world_edit2
     = (Raise (SaveError dump_fails), w')
     ∧ backup_dir w' !! "full_backup_T2" = None
     ∧ manifest_file w' = Some Unparsable)
  ∧ (∃ w',
       incremental_backup toy_digest (env_save_fails "T2" dump_fails) world_edit2
       = (Raise (SaveError dump_fails), w')
       ∧ backup_dir w' !! "incr_backup_T2" = None
       ∧ manifest_file w' = Some Unparsable)
  ∧ (∃ w',
       differential_backup toy_digest (env_save_fails "T2" dump_fails) world_edit2
       = (Raise (SaveError dump_fails), w')
       ∧ backup_dir w' !! "diff_backup_T2" = None
       ∧ manifest_file w' = Some Unparsable).
Proof.
  destruct (save_failure_removes_folder toy_digest
              (env_save_fails "T2" dump_fails) world_edit2 dump_fails eq_refl)
    as (Hfull & Hincr & Hdiff).
  split; [|split].
  - destruct Hfull as (w' & Hrun & Hdir & Hm).
    + apply no_io_error_save_fails.
    + exists w'. exact (conj Hrun (conj Hdir Hm)).
  - destruct (Hincr [record_full] record_incr) as (w' & Hrun & Hdir & Hm).
    + exact stored_records_edit2.
    + apply no_io_error_save_fails.
    + apply no_io_error_save_fails.
    + exact changed_since_incr_nonempty.
    + exists w'. exact (conj Hrun (conj Hdir Hm)).
  - destruct (Hdiff record_full) as (w' & Hrun & Hdir & Hm).
    + exact nearest_full_edit2.
    + apply no_io_error_save_fails.
    + apply no_io_error_save_fails.
    + exact changed_since_full_nonempty.
    + exists w'. exact (conj Hrun (conj Hdir Hm)).
Defined.

(** The specification's orphaned folder: the folder of a full run whose
    save fails is removed, not kept. *)
Lemma orphan_folder_counterexample :
  ¬ orphan_folder_survives toy_digest (env_save_fails "T0" dump_fails) world0.
Proof.
  intros H.
  destruct (H dump_fails (no_io_error_save_fails _ _ _ _) eq_refl)
    as (w' & Hrun & [content Hdir]).
  vm_compute in Hrun. injection Hrun as <-.
  vm_compute in Hdir. discriminate Hdir.
Qed.

(** Saving over the manifest of [world_full] with an interrupted dump. *)
Lemma failed_save_in_place_witness :
  ∃ w',
    _save_manifest (env_save_fails "T1" dump_fails) [record_full; record_incr]
      world_full
    = (Raise (SaveError dump_fails), w')
    ∧ manifest_file w' = Some Unparsable
    ∧ _load_manifest w' = (Return [], w').
Proof.
  destruct (failed_save_in_place (env_save_fails "T1" dump_fails)
              [record_full; record_incr] world_full dump_fails eq_refl)
    as (w' & Hrun & Hm & _ & Hload).
  exists w'. exact (conj Hrun (conj Hm Hload)).
Defined.

(** The record of the full run is stored before the save and not returned
    by the load after it, which does not raise either. *)
Lemma failed_save_counterexample :
  ¬ failed_save_is_atomic (env_save_fails "T1" dump_fails)
      [record_full; record_incr] world_full.
Proof.
  intros H.
  destruct (H (SaveError dump_fails)
              (set_manifest_file (Some Unparsable) world_full) eq_refl)
    as [Hl|[y Hl]]; vm_compute in Hl; discriminate Hl.
Qed.

Lemma precondition_unmet_is_skipped_witness :
  (∃ w', incremental_backup toy_digest (env_at "T0") world0 = (Return (None, 0), w')
         ∧ manifest_file w' = None)
  ∧ (∃ w', differential_backup toy_digest (env_at "T2") world_no_full
           = (Return (None, 0), w')
           ∧ manifest_file w' = Some (Json [record_incr])).
Proof.
  split.
  - apply (proj1 (precondition_unmet_is_skipped toy_digest (env_at "T0") world0)).
    reflexivity.
  - apply (proj2 (precondition_unmet_is_skipped toy_digest (env_at "T2")
                    world_no_full)).
    apply Forall_singleton. by vm_compute.
Defined.

Lemma stored_records_full : stored_records world_full = [] ++ [record_full].
Proof. by vm_compute. Qed.

Lemma nearest_full_full : nearest_full (stored_records world_full) record_full.
Proof. exists [], []. split; [by vm_compute|]. split; [done|]. constructor. Qed.

Lemma unchanged_since_full :
  changed_files toy_digest (files record_full) (source_dir world_full) = ∅.
Proof. by vm_compute. Qed.

(** Right after Full(T0), with the source untouched. *)
Lemma no_changes_is_skipped_witness :
  (∃ w',
     incremental_backup toy_digest (env_at "T1") world_full = (Return (None, 0), w')
     ∧ backup_dir w' !! "incr_backup_T1" = None
     ∧ manifest_file w' = Some (Json [record_full]))
  ∧ (∃ w',
       differential_backup toy_digest (env_at "T1") world_full
       = (Return (None, 0), w')
       ∧ backup_dir w' !! "diff_backup_T1" = None
       ∧ manifest_file w' = Some (Json [record_full])).
Proof.
  destruct (no_changes_is_skipped toy_digest (env_at "T1") world_full)
    as (Hincr & Hdiff).
  split.
  - destruct (Hincr [] record_full) as (w' & Hrun & Hdir & Hm & _).
    + exact stored_records_full.
    + apply no_io_error_ok.
    + exact unchanged_since_full.
    + exists w'. split; [exact Hrun|]. split; [exact Hdir|].
      etransitivity; [exact Hm|]. by vm_compute.
  - destruct (Hdiff record_full) as (w' & Hrun & Hdir & Hm & _).
    + exact nearest_full_full.
    + apply no_io_error_ok.
    + exact unchanged_since_full.
    + exists w'. split; [exact Hrun|]. split; [exact Hdir|].
      etransitivity; [exact Hm|]. by vm_compute.
Defined.

Lemma full_run_completes :
  full_backup toy_digest (env_at "T0") world0
  = (Return ("/backups/full_backup_T0", 2), world_full).
Proof. by vm_compute. Qed.

Lemma incremental_run_completes :
  incremental_backup toy_digest (env_at "T1") world_edit1
  = (Return (Some "/backups/incr_backup_T1", 1), world_incr).
Proof. by vm_compute. Qed.

Lemma differential_run_completes :
  differential_backup toy_digest (env_at "T2") world_edit2
  = (Return (Some "/backups/diff_backup_T2", 2),
     (differential_backup toy_digest (env_at "T2") world_edit2).2).
Proof. by vm_compute. Qed.

Lemma run_folder_names_witness :
  is_Some (backup_dir world_full !! "full_backup_T0")
  ∧ is_Some (backup_dir world_incr !! "incr_backup_T1")
  ∧ is_Some (backup_dir (differential_backup toy_digest (env_at "T2")
                           world_edit2).2 !! "diff_backup_T2").
Proof.
  split; [|split].
  - exact (proj1 (proj2 (proj1 (run_folder_names toy_digest (env_at "T0") world0)
                           _ _ _ full_run_completes))).
  - exact (proj1 (proj2 (proj1 (proj2 (run_folder_names toy_digest (env_at "T1")
                                         world_edit1))
                           _ _ _ incremental_run_completes))).
  - exact (proj1 (proj2 (proj2 (proj2 (run_folder_names toy_digest (env_at "T2")
                                         world_edit2))
                           _ _ _ differential_run_completes))).
Defined.

(** The folder of Full(T0) is [full_backup_T0]: there is no [full_T0]. *)
Lemma full_folder_name_counterexample :
  ¬ full_folder_named_full_ts toy_digest (env_at "T0") world0.
Proof.
  intros H. destruct (H _ _ full_run_completes) as [content Hdir].
  vm_compute in Hdir. discriminate Hdir.
Qed.

Lemma precondition_skip_touches_nothing_witness :
  (∃ w', incremental_backup toy_digest (env_at "T0") world0 = (Return (None, 0), w')
         ∧ backup_dir w' = ∅)
  ∧ (∃ w', differential_backup toy_digest (env_at "T2") world_no_full
           = (Return (None, 0), w')
           ∧ backup_dir w' = ∅).
Proof.
  destruct (precondition_skip_touches_nothing toy_digest (env_at "T0") world0)
    as (Hincr & _).
  destruct (precondition_skip_touches_nothing toy_digest (env_at "T2")
              world_no_full) as (_ & Hdiff).
  split.
  - destruct Hincr as (w' & Hrun & Hdir & _); [reflexivity|].
    exists w'. exact (conj Hrun Hdir).
  - destruct Hdiff as (w' & Hrun & Hdir & _).
    + apply Forall_singleton. by vm_compute.
    + exists w'. exact (conj Hrun Hdir).
Defined.

(** ** The hasher: the chunks cover the file *)

Lemma append_cons x (a b : string) : String x a +:+ b = String x (a +:+ b).
Proof. reflexivity. Qed.

Lemma append_empty_r (a : string) : a +:+ "" = a.
Proof. induction a as [|x a IH]; [done|]. by rewrite append_cons, IH. Qed.

Lemma append_assoc (a b c : string) : (a +:+ b) +:+ c = a +:+ b +:+ c.
Proof. induction a as [|x a IH]; [done|]. by rewrite !append_cons, IH. Qed.

Lemma length_append (a b : string) :
  String.length (a +:+ b) = String.length a + String.length b.
Proof. induction a as [|x a IH]; [done|]. rewrite append_cons. cbn. by rewrite IH. Qed.

Lemma read_append n (left : string) : (read n left).1 +:+ (read n left).2 = left.
Proof.
  revert left. induction n as [|n IH]; intros [|c rest]; try done.
  cbn [read fst snd]. by rewrite append_cons, IH.
Qed.

Lemma read_length n (left : string) :
  String.length (read n left).1 = n `min` String.length left.
Proof.
  revert left. induction n as [|n IH]; intros [|c rest]; try done.
  cbn [read fst snd String.length]. by rewrite IH.
Qed.

Lemma read_empty n (left : string) :
  0 < n → (read n left).1 = "" → left = "".
Proof. destruct n, left; try done. lia. Qed.

Lemma read_until_empty_spec n fuel :
  0 < n →
  ∀ left : string, (String.length left < fuel)%nat →
    foldr String.append "" (read_until_empty n fuel left) = left
    ∧ Forall (λ chunk, chunk ≠ "" ∧ (String.length chunk ≤ n)%nat)
        (read_until_empty n fuel left).
Proof.
  intros Hn. induction fuel as [|fuel IH]; intros left Hfuel; [lia|].
  cbn [read_until_empty].
  pose proof (read_append n left) as Happ.
  pose proof (read_length n left) as Hlen.
  destruct (read n left).1 as [|c chunk] eqn:Hchunk.
  - apply (read_empty n left Hn) in Hchunk as ->. by split.
  - destruct (IH (read n left).2) as [Hcat Hall].
    + rewrite <- Happ, length_append in Hfuel. cbn in Hfuel. lia.
    + split.
      * cbn [foldr]. by rewrite Hcat.
      * constructor; [|done]. split; [done|]. lia.
Qed.

(** Every chunk but the last is full. *)
Lemma read_until_empty_full n fuel :
  ∀ (left : string) front chunk,
    read_until_empty n fuel left = front ++ [chunk] →
    Forall (λ c, String.length c = n) front.
Proof.
  induction fuel as [|fuel IH]; intros left front chunk; cbn [read_until_empty].
  - by destruct front.
  - pose proof (read_append n left) as Happ.
    pose proof (read_length n left) as Hlen.
    destruct (read n left).1 as [|c0 chunk0] eqn:Hchunk; [by destruct front|].
    destruct front as [|c1 front]; [constructor|].
    intros [= <- Hrest]. constructor; [|by eapply IH].
    destruct (decide (n ≤ String.length left)%nat) as [|Hshort];
      [rewrite Hlen; lia|].
    (* the chunk is short: nothing is left, so it is the last one *)
    exfalso. assert ((read n left).2 = "") as Hleft.
    { apply (f_equal String.length) in Happ. rewrite length_append in Happ.
      destruct (read n left).2; [done|]. cbn [String.length] in Happ, Hlen. lia. }
    rewrite Hleft in Hrest. destruct fuel; [by destruct front|].
    cbn [read_until_empty] in Hrest.
    assert ((read n "").1 = "") as Hnil by by destruct n.
    rewrite Hnil in Hrest. by destruct front.
Qed.

Lemma chunks_spec (data : string) :
  foldr String.append "" (chunks data) = data
  ∧ Forall (λ chunk, chunk ≠ "" ∧ (String.length chunk ≤ chunk_size)%nat) (chunks data)
  ∧ (chunks data = [] ↔ data = "").
Proof.
  unfold chunks.
  destruct (read_until_empty_spec chunk_size (S (String.length data)))
    with (left := data) as [Hcat Hall]; [unfold chunk_size; lia|lia|].
  split; [done|]. split; [done|]. split.
  - intros Hnil. by rewrite Hnil in Hcat.
  - by intros ->.
Qed.

(** X1.  The chunks [_calculate_file_hash] feeds to the hash object are, in
    order, the content of the file: their concatenation is the file, none is
    empty or longer than 4096 bytes, every one but the last has 4096 bytes,
    and an empty file gives no chunk at all ([update] is never called). *)
Theorem chunks_cover_file (data : string) :
  foldr String.append "" (chunks data) = data
  ∧ Forall (λ chunk, chunk ≠ "" ∧ (String.length chunk ≤ 4096)%nat) (chunks data)
  ∧ (∀ front chunk, chunks data = front ++ [chunk] →
       Forall (λ c, String.length c = 4096) front)
  ∧ (chunks data = [] ↔ data = "").
Proof.
  destruct (chunks_spec data) as (Hcat & Hall & Hnil).
  split; [done|]. split; [done|]. split; [|done].
  intros front chunk. apply read_until_empty_full.
Qed.

Section HasherFacts.

Context {H : Type} (md5 : H) (update : H → string → H) (hexdigest : H → string).

(** [hashlib]: repeated calls of [update] are equivalent to a single call
    with the concatenation of the arguments. *)
Hypothesis update_append : ∀ h a b, update (update h a) b = update h (a +:+ b).

Lemma foldl_update h chunk (rest : list string) :
  foldl update h (chunk :: rest)
  = update h (foldr String.append "" (chunk :: rest)).
Proof.
  revert h chunk. induction rest as [|c rest IH]; intros h chunk.
  - cbn [foldl foldr]. by rewrite append_empty_r.
  - change (foldl update h (chunk :: c :: rest))
      with (foldl update (update h chunk) (c :: rest)).
    rewrite IH, update_append. done.
Qed.

(** X2.  Under the documented contract of [update], the digest
    [_calculate_file_hash] returns is that of one [update] with the whole
    content, whatever the chunking; for an empty file it is the digest of
    the fresh hash object. *)
Theorem chunked_hash_is_hash_of_content (data : string) :
  calculate_file_hash_chunked md5 update hexdigest data
  = hexdigest (match data with
               | "" => md5
               | _ => update md5 data
               end).
Proof.
  unfold calculate_file_hash_chunked.
  destruct (chunks_spec data) as (Hcat & _ & Hnil).
  destruct (chunks data) as [|chunk rest] eqn:Hchunks.
  - by rewrite (proj1 Hnil eq_refl).
  - rewrite foldl_update, Hcat. destruct data; [|done].
    by destruct (proj2 Hnil eq_refl).
Qed.

End HasherFacts.

(** ** What every run leaves alone *)

Section Frames.

Context (md5 : string → string) (env : Env).

Lemma count_regular (walk : list (string * entry)) :
  NoDup walk.*1 →
  length (filter (λ pe, is_file pe.2 = true) walk)
  = size (regular_files (list_to_map walk)).
Proof.
  induction walk as [|[p e] rest IH]; intros Hnd; [done|].
  apply NoDup_cons in Hnd as [Hp Hnd]. destruct e as [d|].
  - rewrite filter_cons_True by done. cbn [length].
    rewrite regular_files_cons_file, map_size_insert_None, IH; [done..|].
    by apply regular_files_notin.
  - rewrite filter_cons_False by done.
    rewrite regular_files_cons_dir by done. by apply IH.
Qed.

Lemma count_files_run w :
  _count_files w = (Return (size (regular_files (source_dir w))), w).
Proof.
  unfold _count_files. rewrite count_regular by apply NoDup_fst_map_to_list.
  by rewrite list_to_map_to_list.
Qed.

Lemma full_backup_frame w :
  let w' := (full_backup md5 env w).2 in
  source_dir w' = source_dir w
  ∧ (∀ f, f ≠ "full_backup_" +:+ now env →
          backup_dir w' !! f = backup_dir w !! f)
  ∧ (save_error env ≠ Some dump_fails →
     ∃ l, stored_records w' = stored_records w ++ l ∧ (length l ≤ 1)%nat).
Proof.
  cbn zeta. destruct (full_backup_run md5 env w) as (w' & Hs & Hcase).
  assert (∀ m : option manifest_text, manifest_file w' = m →
            stored_records w' = match m with Some (Json l) => l | _ => [] end)
    as Hst by (intros m <-; done).
  destruct (full_loop_fault _ _); [|destruct (save_error env) as [[|]|]];
    destruct Hcase as (-> & Hb & Hm); cbn [snd]; rewrite Hb;
    (split; [done|]);
    (split; [intros f Hf;
             first [apply lookup_delete_ne|apply lookup_insert_ne]; congruence|]);
    intros Hdump; try done.
  - exists []. split; [rewrite (right_id_L [] (++)); exact (Hst _ Hm)|cbn; lia].
  - exists []. split; [rewrite (right_id_L [] (++)); exact (Hst _ Hm)|cbn; lia].
  - eexists [_]. split; [exact (Hst _ Hm)|cbn; lia].
Qed.

Lemma delta_backup_frame kind prefix ref w :
  let w' := (delta_backup md5 env kind prefix (stored_records w) ref w).2 in
  source_dir w' = source_dir w
  ∧ (∀ f, f ≠ prefix +:+ now env → backup_dir w' !! f = backup_dir w !! f)
  ∧ (save_error env ≠ Some dump_fails →
     ∃ l, stored_records w' = stored_records w ++ l ∧ (length l ≤ 1)%nat).
Proof.
  cbn zeta.
  destruct (delta_backup_run md5 env kind prefix (stored_records w) ref w)
    as (w' & Hs & Hcase).
  assert (∀ m : option manifest_text, manifest_file w' = m →
            stored_records w' = match m with Some (Json l) => l | _ => [] end)
    as Hst by (intros m <-; done).
  destruct (delta_loop_fault _ _ _ _);
    [|destruct (decide _); [|destruct (save_error env) as [[|]|]]];
    destruct Hcase as (-> & Hb & Hm); cbn [snd]; rewrite Hb;
    (split; [done|]);
    (split; [intros f Hf;
             first [apply lookup_delete_ne|apply lookup_insert_ne]; congruence|]);
    intros Hdump; try done.
  - exists []. split; [rewrite (right_id_L [] (++)); exact (Hst _ Hm)|cbn; lia].
  - destruct Hm as [Hm _]. exists [].
    split; [rewrite (right_id_L [] (++)); exact (Hst _ Hm)|cbn; lia].
  - exists []. split; [rewrite (right_id_L [] (++)); exact (Hst _ Hm)|cbn; lia].
  - eexists [_]. split; [exact (Hst _ Hm)|cbn; lia].
Qed.

Lemma incremental_backup_frame w :
  let w' := (incremental_backup md5 env w).2 in
  source_dir w' = source_dir w
  ∧ (∀ f, f ≠ "incr_backup_" +:+ now env →
          backup_dir w' !! f = backup_dir w !! f)
  ∧ (save_error env ≠ Some dump_fails →
     ∃ l, stored_records w' = stored_records w ++ l ∧ (length l ≤ 1)%nat).
Proof.
  cbn zeta. pose proof (delta_backup_frame "incremental" "incr_backup_") as Hd.
  unfold incremental_backup. rewrite bind_run, load_run.
  destruct (stored_records w) as [|first rest] eqn:Hst.
  - split; [done|]. split; [done|]. intros _. exists [].
    split; [exact Hst|cbn; lia].
  - specialize (Hd (List.last rest first) w). rewrite Hst in Hd. exact Hd.
Qed.

Lemma differential_backup_frame w :
  let w' := (differential_backup md5 env w).2 in
  source_dir w' = source_dir w
  ∧ (∀ f, f ≠ "diff_backup_" +:+ now env →
          backup_dir w' !! f = backup_dir w !! f)
  ∧ (save_error env ≠ Some dump_fails →
     ∃ l, stored_records w' = stored_records w ++ l ∧ (length l ≤ 1)%nat).
Proof.
  cbn zeta. pose proof (delta_backup_frame "differential" "diff_backup_") as Hd.
  unfold differential_backup. rewrite bind_run, load_run.
  assert (∀ d, let w' := World (source_dir w) (backup_dir w) (manifest_file w)
                            d (total w) in
               source_dir w' = source_dir w
               ∧ (∀ f, f ≠ "diff_backup_" +:+ now env →
                       backup_dir w' !! f = backup_dir w !! f)
               ∧ (save_error env ≠ Some dump_fails →
                  ∃ l, stored_records w' = stored_records w ++ l ∧ (length l ≤ 1)%nat))
    as Hskip.
  { intros d. cbn. split; [done|]. split; [done|]. intros _. exists [].
    split; [by rewrite (right_id_L [] (++))|cbn; lia]. }
  destruct (stored_records w) as [|first rest] eqn:Hst.
  - exact (Hskip _).
  - destruct (List.find _ _) as [last_full|].
    + specialize (Hd last_full w). rewrite Hst in Hd. exact Hd.
    + exact (Hskip _).
Qed.


(** X4.  Whatever the outcome of a run, every folder of the backup root
    other than the run's own is after the run what it was before: earlier
    backups are neither changed nor removed. *)
Theorem other_folders_untouched w f :
  (f ≠ "full_backup_" +:+ now env →
   backup_dir (full_backup md5 env w).2 !! f = backup_dir w !! f)
  ∧ (f ≠ "incr_backup_" +:+ now env →
     backup_dir (incremental_backup md5 env w).2 !! f = backup_dir w !! f)
  ∧ (f ≠ "diff_backup_" +:+ now env →
     backup_dir (differential_backup md5 env w).2 !! f = backup_dir w !! f).
Proof.
  split; [apply full_backup_frame|].
  split; [apply incremental_backup_frame|apply differential_backup_frame].
Qed.

(** X5.  Unless the dump of the manifest is interrupted, the records a load
    yields after a run of any strategy, whatever its outcome, are those it
    yielded before followed by at most one record: no record is changed or
    dropped. *)
Theorem manifest_append_only w :
  save_error env ≠ Some dump_fails →
  (∃ l, stored_records (full_backup md5 env w).2 = stored_records w ++ l
        ∧ (length l ≤ 1)%nat)
  ∧ (∃ l, stored_records (incremental_backup md5 env w).2 = stored_records w ++ l
          ∧ (length l ≤ 1)%nat)
  ∧ (∃ l, stored_records (differential_backup md5 env w).2 = stored_records w ++ l
          ∧ (length l ≤ 1)%nat).
Proof.
  intros Hdump.
  split; [by apply full_backup_frame|].
  split; [by apply incremental_backup_frame|by apply differential_backup_frame].
Qed.

End Frames.

(** ** Counting, and the manifest store *)

Section Counting.

Context (md5 : string → string) (env : Env).

Lemma delta_backup_count kind prefix manifest ref w p n w' :
  delta_backup md5 env kind prefix manifest ref w = (Return (Some p, n), w') →
  (0 < n ≤ size (regular_files (source_dir w)))%nat.
Proof.
  intros Hrun.
  destruct (delta_backup_run md5 env kind prefix manifest ref w)
    as (w'' & _ & Hcase).
  destruct (delta_loop_fault _ _ _ _); [destruct Hcase; congruence|].
  destruct (decide _) as [|Hne]; [destruct Hcase; congruence|].
  destruct (save_error env); [destruct Hcase; congruence|].
  destruct Hcase as (Hrun' & _). rewrite Hrun' in Hrun.
  injection Hrun as _ <- _. split.
  - apply map_size_non_empty_iff in Hne. lia.
  - apply map_subseteq_size, map_filter_subseteq.
Qed.

(** X6.  [_count_files] returns the number of regular files of the source,
    directories not counted, and changes nothing.  A completed full run
    reports exactly that many files; a completed incremental or
    differential run reports at least one and at most that many. *)
Theorem files_counted w :
  _count_files w = (Return (size (regular_files (source_dir w))), w)
  ∧ (∀ p n w',
       full_backup md5 env w = (Return (p, n), w') →
       n = size (regular_files (source_dir w)))
  ∧ (∀ p n w',
       incremental_backup md5 env w = (Return (Some p, n), w') →
       (0 < n ≤ size (regular_files (source_dir w)))%nat)
  ∧ (∀ p n w',
       differential_backup md5 env w = (Return (Some p, n), w') →
       (0 < n ≤ size (regular_files (source_dir w)))%nat).
Proof.
  split; [apply count_files_run|]. split; [|split].
  - intros p n w' Hrun.
    destruct (full_backup_run md5 env w) as (w'' & _ & Hcase).
    destruct (full_loop_fault _ _); [destruct Hcase; congruence|].
    destruct (save_error env); [destruct Hcase; congruence|].
    destruct Hcase as (Hrun' & _). rewrite Hrun' in Hrun. by injection Hrun.
  - intros p n w'. unfold incremental_backup. rewrite bind_run, load_run.
    destruct (stored_records w); [done|]. apply delta_backup_count.
  - intros p n w'. unfold differential_backup. rewrite bind_run, load_run.
    destruct (stored_records w); [done|].
    destruct (List.find _ _); [apply delta_backup_count|done].
Qed.


(** ** The callers *)

(** Steps into a caller up to the call of the engine method, on the world
    [w0] that [add_task] leaves. *)
Ltac enter_call w0 :=
  unfold full_backup_call, incremental_backup_call, differential_backup_call;
  rewrite bind_run; cbn [add_task]; set (w0 := World _ _ _ _ _);
  unfold try_except; rewrite bind_run.

(** X8.  The three callers do not raise when a call of the loop is refused:
    they return normally having printed the line of the failure, with the
    run's folder removed and the manifest file as it was, so their own
    caller cannot tell a failed run from a completed one. *)
Theorem callers_swallow_loop_failure w :
  (full_loop_refused env (source_dir w) →
   ∃ op p w',
     full_backup_call md5 env w = (Return (failed_lines (OSError op p)), w')
     ∧ io_error env op p = true
     ∧ backup_dir w' !! ("full_backup_" +:+ now env) = None
     ∧ manifest_file w' = manifest_file w)
  ∧ (∀ older ref,
       stored_records w = older ++ [ref] →
       delta_loop_refused md5 env (files ref) (source_dir w) →
       ∃ op p w',
         incremental_backup_call md5 env w
         = (Return (failed_lines (OSError op p)), w')
         ∧ io_error env op p = true
         ∧ backup_dir w' !! ("incr_backup_" +:+ now env) = None
         ∧ manifest_file w' = manifest_file w)
  ∧ (∀ ref,
       nearest_full (stored_records w) ref →
       delta_loop_refused md5 env (files ref) (source_dir w) →
       ∃ op p w',
         differential_backup_call md5 env w
         = (Return (failed_lines (OSError op p)), w')
         ∧ io_error env op p = true
         ∧ backup_dir w' !! ("diff_backup_" +:+ now env) = None
         ∧ manifest_file w' = manifest_file w).
Proof.
  split; [|split].
  - intros Href. apply (full_loop_refused_fault md5) in Href as [x Hx].
    enter_call w0.
    destruct (full_backup_run md5 env w0) as (w' & _ & Hcase).
    change (source_dir w0) with (source_dir w) in Hcase.
    rewrite Hx in Hcase. destruct Hcase as (Hrun & Hb & Hm).
    apply full_loop_fault_Some in Hx as (op & p & d & -> & _ & Hio).
    exists op, p, w'. rewrite Hrun.
    split; [done|]. split; [done|]. split; [|done].
    rewrite Hb. apply lookup_delete_eq.
  - intros older ref Hst Href.
    enter_call w0.
    rewrite (incremental_backup_unfold md5 env w0 older ref Hst).
    destruct (delta_backup_loop_raises md5 env "incremental" "incr_backup_"
                (older ++ [ref]) ref w0 Href)
      as (op & p & w' & Hrun & Hio & Hb & Hm).
    exists op, p, w'. rewrite Hrun. done.
  - intros ref Hnf Href.
    enter_call w0.
    rewrite (differential_backup_unfold md5 env w0 ref Hnf).
    destruct (delta_backup_loop_raises md5 env "differential" "diff_backup_"
                (stored_records w0) ref w0 Href)
      as (op & p & w' & Hrun & Hio & Hb & Hm).
    exists op, p, w'. rewrite Hrun. done.
Qed.

(** X9.  The pair [(None, 0)] of a skipped run is not empty, so [if result:]
    holds: after a skip for an empty manifest, for a manifest with no full
    record, or for lack of changes, the callers of the incremental and of
    the differential run print a location of [None] and a count of 0. *)
Theorem skipped_run_prints_none w :
  let skipped_lines :=
    [""; "[green]• Backup location: None"; "[green]• Files updated: 0"; ""] in
  (stored_records w = [] →
   ∃ w', incremental_backup_call md5 env w = (Return skipped_lines, w'))
  ∧ (Forall (λ b, type b ≠ "full") (stored_records w) →
     ∃ w', differential_backup_call md5 env w = (Return skipped_lines, w'))
  ∧ (∀ older ref,
       stored_records w = older ++ [ref] →
       io_ok env [op_read] (regular_files (source_dir w)) →
       changed_files md5 (files ref) (source_dir w) = ∅ →
       ∃ w', incremental_backup_call md5 env w = (Return skipped_lines, w'))
  ∧ (∀ ref,
       nearest_full (stored_records w) ref →
       io_ok env [op_read] (regular_files (source_dir w)) →
       changed_files md5 (files ref) (source_dir w) = ∅ →
       ∃ w', differential_backup_call md5 env w = (Return skipped_lines, w')).
Proof.
  cbn zeta. split; [|split; [|split]].
  - intros Hst. enter_call w0.
    rewrite (incremental_backup_skips md5 env w0 Hst). by eexists.
  - intros Hnf. enter_call w0.
    destruct (differential_backup_skips md5 env w0 Hnf) as (d & -> & _).
    by eexists.
  - intros older ref Hst Hread Hnone.
    enter_call w0.
    rewrite (incremental_backup_unfold md5 env w0 older ref Hst).
    destruct (delta_backup_no_changes md5 env "incremental" "incr_backup_"
                (older ++ [ref]) ref w0 Hread Hnone) as (w' & -> & _).
    by eexists.
  - intros ref Hnf Hread Hnone.
    enter_call w0.
    rewrite (differential_backup_unfold md5 env w0 ref Hnf).
    destruct (delta_backup_no_changes md5 env "differential" "diff_backup_"
                (stored_records w0) ref w0 Hread Hnone) as (w' & -> & _).
    by eexists.
Qed.

End Counting.

(** ** Runs in sequence *)

Section Sequences.

Context (md5 : string → string).

Lemma unchanged_after_full (src : gmap string entry) :
  changed_files md5 (md5 <$> regular_files src) src = ∅.
Proof.
  apply map_empty. intros p. unfold changed_files.
  apply map_lookup_filter_None. right. intros d Hd. unfold differs. cbn.
  rewrite lookup_fmap, Hd. cbn. tauto.
Qed.

Lemma io_ok_weaken env ops ops' (fs fs' : gmap string string) :
  io_ok env ops fs → ops' ⊆ ops → fs' ⊆ fs → io_ok env ops' fs'.
Proof.
  intros Hok Hops Hfs p op [d Hd] Hop. apply Hok; [|by apply Hops].
  exists d. by eapply lookup_weaken.
Qed.

Lemma changed_files_subseteq reference (src : gmap string entry) :
  changed_files md5 reference src ⊆ regular_files src.
Proof. apply map_filter_subseteq. Qed.

Lemma nearest_full_snoc (manifest : list backup_info) ref r :
  nearest_full manifest ref → type r ≠ "full" →
  nearest_full (manifest ++ [r]) ref.
Proof.
  intros (older & newer & -> & Hfull & Hnewer) Hr.
  exists older, (newer ++ [r]). rewrite <- (assoc_L (++)).
  split; [done|]. split; [done|]. apply Forall_app. by rewrite Forall_singleton.
Qed.

Lemma stored_records_of (w : world) (l : list backup_info) :
  manifest_file w = Some (Json l) → stored_records w = l.
Proof. unfold stored_records. by intros ->. Qed.

(** X10.  A completed full run followed by an incremental or a differential
    run with the source untouched: the second run finds every digest in the
    record just written, is skipped for lack of changes, and the manifest
    keeps the one record the full run added. *)
Theorem full_then_delta_is_skipped env env' w :
  let src := source_dir w in
  io_ok env [op_mkdir; op_copy; op_read] (regular_files src) →
  save_error env = None →
  io_ok env' [op_read] (regular_files src) →
  ∃ w1,
    full_backup md5 env w
    = (Return (path_of env ("full_backup_" +:+ now env),
               size (regular_files src)), w1)
    ∧ (∃ w2, incremental_backup md5 env' w1 = (Return (None, 0), w2)
             ∧ stored_records w2 = stored_records w ++ [full_record md5 env src])
    ∧ (∃ w2, differential_backup md5 env' w1 = (Return (None, 0), w2)
             ∧ stored_records w2 = stored_records w ++ [full_record md5 env src]).
Proof.
  cbn zeta. intros Hok Hsave Hread.
  destruct (full_backup_run md5 env w) as (w1 & Hs & Hcase).
  rewrite (full_loop_fault_ok md5 env _ Hok), Hsave in Hcase.
  destruct Hcase as (Hrun & _ & Hm). apply stored_records_of in Hm.
  exists w1. split; [done|].
  rewrite <- Hs in Hread.
  assert (changed_files md5 (files (full_record md5 env (source_dir w)))
            (source_dir w1) = ∅) as Hnone
    by (rewrite Hs; apply unchanged_after_full).
  split.
  - rewrite (incremental_backup_unfold md5 env' w1 _ _ Hm).
    destruct (delta_backup_no_changes md5 env' "incremental" "incr_backup_"
                (stored_records w ++ [full_record md5 env (source_dir w)])
                _ w1 Hread Hnone) as (w2 & Hrun2 & _ & Hm2 & _).
    exists w2. split; [done|]. unfold stored_records at 1. rewrite Hm2.
    exact Hm.
  - assert (nearest_full (stored_records w1) (full_record md5 env (source_dir w)))
      as Hnf by (rewrite Hm; by exists (stored_records w), []).
    rewrite (differential_backup_unfold md5 env' w1 _ Hnf).
    destruct (delta_backup_no_changes md5 env' "differential" "diff_backup_"
                (stored_records w1) _ w1 Hread Hnone)
      as (w2 & Hrun2 & _ & Hm2 & _).
    exists w2. split; [done|]. unfold stored_records at 1. rewrite Hm2.
    exact Hm.
Qed.


(** X12.  Two differential runs in a row with the source untouched: the
    record of the first is not full, so the reference of the second is the
    same full record, and the second copies the same files again and appends
    a record with the same [files] and the same parent. *)
Theorem differential_after_differential env env' w ref :
  let src := source_dir w in
  let changed := changed_files md5 (files ref) src in
  nearest_full (stored_records w) ref →
  io_ok env [op_read; op_mkdir; op_copy] (regular_files src) →
  save_error env = None →
  io_ok env' [op_read; op_mkdir; op_copy] (regular_files src) →
  save_error env' = None →
  changed ≠ ∅ →
  ∃ w1 w2,
    differential_backup md5 env w
    = (Return (Some (path_of env ("diff_backup_" +:+ now env)), size changed), w1)
    ∧ differential_backup md5 env' w1
      = (Return (Some (path_of env' ("diff_backup_" +:+ now env')), size changed),
         w2)
    ∧ stored_records w2
      = stored_records w
        ++ [delta_record md5 env "differential" "diff_backup_" ref src;
            delta_record md5 env' "differential" "diff_backup_" ref src].
Proof.
  cbn zeta. intros Hnf Hok Hsave Hok' Hsave' Hne.
  assert (∀ e, io_ok e [op_read; op_mkdir; op_copy] (regular_files (source_dir w)) →
            io_ok e [op_read] (regular_files (source_dir w))
            ∧ io_ok e [op_mkdir; op_copy]
                (changed_files md5 (files ref) (source_dir w))) as Hsplit.
  { intros e He. split.
    - eapply io_ok_weaken; [exact He| |done].
      intros op ->%list_elem_of_singleton. left.
    - eapply io_ok_weaken; [exact He| |apply changed_files_subseteq].
      intros op Hop. apply list_elem_of_In. apply list_elem_of_In in Hop.
      cbn in *. tauto. }
  destruct (Hsplit env Hok) as [Hread Hcopy].
  destruct (Hsplit env' Hok') as [Hread' Hcopy'].
  pose proof (proj1 (differential_backup_frame md5 env w)) as Hs. cbn zeta in Hs.
  rewrite (differential_backup_unfold md5 env w ref Hnf) in Hs |- *.
  destruct (delta_backup_completes md5 env "differential" "diff_backup_"
              (stored_records w) ref w Hread Hcopy Hsave Hne)
    as (w1 & Hrun & Hm & _).
  rewrite Hrun in Hs |- *. cbn [snd] in Hs. apply stored_records_of in Hm.
  assert (nearest_full (stored_records w1) ref) as Hnf1
    by (rewrite Hm; by apply nearest_full_snoc).
  rewrite <- Hs in Hread', Hcopy', Hne.
  destruct (delta_backup_completes md5 env' "differential" "diff_backup_"
              (stored_records w1) ref w1 Hread' Hcopy' Hsave' Hne)
    as (w2 & Hrun2 & Hm2 & _).
  rewrite <- (differential_backup_unfold md5 env' w1 ref Hnf1) in Hrun2.
  rewrite Hs in Hrun2, Hm2. apply stored_records_of in Hm2.
  exists w1, w2. split; [done|]. split; [done|].
  by rewrite Hm2, Hm, <- (assoc_L (++)).
Qed.

(** X13.  [mkdir(exist_ok=True)] reuses a folder of the same name, and the
    handler removes the run's folder whatever it held: when a full run
    completes and a second full run reads the same clock second and then
    fails in its loop, the folder of the first run is removed while its
    record stays the last of the manifest, pointing at a folder that no
    longer exists. *)
Theorem failed_rerun_removes_earlier_folder env env' w :
  let src := source_dir w in
  let folder := "full_backup_" +:+ now env in
  now env' = now env →
  io_ok env [op_mkdir; op_copy; op_read] (regular_files src) →
  save_error env = None →
  full_loop_refused env' src →
  ∃ w1 w2 op p,
    full_backup md5 env w = (Return (path_of env folder, size (regular_files src)), w1)
    ∧ is_Some (backup_dir w1 !! folder)
    ∧ full_backup md5 env' w1 = (Raise (OSError op p), w2)
    ∧ backup_dir w2 !! folder = None
    ∧ last (stored_records w2) = Some (full_record md5 env src)
    ∧ path (full_record md5 env src) = path_of env folder.
Proof.
  cbn zeta. intros Hnow Hok Hsave Href.
  destruct (full_backup_run md5 env w) as (w1 & Hs & Hcase).
  rewrite (full_loop_fault_ok md5 env _ Hok), Hsave in Hcase.
  destruct Hcase as (Hrun & Hb & Hm).
  rewrite <- Hs in Href.
  apply (full_loop_refused_fault md5) in Href as [x Hx].
  destruct (full_backup_run md5 env' w1) as (w2 & _ & Hcase).
  rewrite Hx in Hcase. destruct Hcase as (Hrun2 & Hb2 & Hm2).
  apply full_loop_fault_Some in Hx as (op & p & d & -> & _ & Hio).
  exists w1, w2, op, p. split; [done|].
  split; [rewrite Hb, lookup_insert_eq; by eexists|]. split; [done|].
  split; [rewrite Hb2, Hnow; apply lookup_delete_eq|].
  split; [|done]. unfold stored_records. by rewrite Hm2, Hm, last_snoc.
Qed.

End Sequences.

(** ** Edges of the source tree and of the clock *)

Section Edges.

Context (md5 : string → string).

Lemma regular_files_delete (src : gmap string entry) p :
  regular_files (delete p src) = delete p (regular_files src).
Proof. apply omap_delete. Qed.

Lemma unchanged_after_delete (src : gmap string entry) p :
  changed_files md5 (md5 <$> regular_files src) (delete p src) = ∅.
Proof.
  apply map_empty. intros q. unfold changed_files.
  apply map_lookup_filter_None. right. intros d Hd. unfold differs. cbn.
  rewrite regular_files_delete in Hd. apply lookup_delete_Some in Hd as [_ Hd].
  rewrite lookup_fmap, Hd. cbn. tauto.
Qed.

(** X14.  A deletion is not a change: after a completed full run, removing
    a file from the source and running an incremental or a differential
    run finds nothing new or changed; the run is skipped and no record
    tells that the file is gone. *)
Theorem deletion_is_not_detected env env' w p :
  let src := source_dir w in
  io_ok env [op_mkdir; op_copy; op_read] (regular_files src) →
  save_error env = None →
  io_ok env' [op_read] (regular_files src) →
  ∃ w1,
    full_backup md5 env w
    = (Return (path_of env ("full_backup_" +:+ now env),
               size (regular_files src)), w1)
    ∧ source_dir (remove_source p w1) = delete p src
    ∧ (∃ w2, incremental_backup md5 env' (remove_source p w1)
             = (Return (None, 0), w2)
             ∧ stored_records w2 = stored_records w ++ [full_record md5 env src])
    ∧ (∃ w2, differential_backup md5 env' (remove_source p w1)
             = (Return (None, 0), w2)
             ∧ stored_records w2 = stored_records w ++ [full_record md5 env src]).
Proof.
  cbn zeta. intros Hok Hsave Hread.
  destruct (full_backup_run md5 env w) as (w1 & Hs & Hcase).
  rewrite (full_loop_fault_ok md5 env _ Hok), Hsave in Hcase.
  destruct Hcase as (Hrun & _ & Hm).
  exists w1. split; [done|].
  set (w1' := remove_source p w1).
  assert (source_dir w1' = delete p (source_dir w)) as Hs'
    by (unfold w1', remove_source; cbn; by rewrite Hs).
  assert (stored_records w1'
          = stored_records w ++ [full_record md5 env (source_dir w)]) as Hst
    by (apply stored_records_of; exact Hm).
  assert (manifest_file w1' = manifest_file w1) as Hm' by done.
  clearbody w1'. split; [done|].
  assert (io_ok env' [op_read] (regular_files (source_dir w1'))) as Hread'.
  { rewrite Hs'. eapply io_ok_weaken; [exact Hread|done|].
    rewrite regular_files_delete. apply delete_subseteq. }
  assert (changed_files md5 (files (full_record md5 env (source_dir w)))
            (source_dir w1') = ∅) as Hnone
    by (rewrite Hs'; apply unchanged_after_delete).
  split.
  - rewrite (incremental_backup_unfold md5 env' w1' _ _ Hst).
    destruct (delta_backup_no_changes md5 env' "incremental" "incr_backup_"
                (stored_records w ++ [full_record md5 env (source_dir w)])
                _ w1' Hread' Hnone) as (w2 & Hrun2 & _ & Hm2 & _).
    exists w2. split; [done|]. unfold stored_records at 1. rewrite Hm2.
    exact Hst.
  - assert (nearest_full (stored_records w1') (full_record md5 env (source_dir w)))
      as Hnf by (rewrite Hst; by exists (stored_records w), []).
    rewrite (differential_backup_unfold md5 env' w1' _ Hnf).
    destruct (delta_backup_no_changes md5 env' "differential" "diff_backup_"
                (stored_records w1') _ w1' Hread' Hnone)
      as (w2 & Hrun2 & _ & Hm2 & _).
    exists w2. split; [done|]. unfold stored_records at 1. rewrite Hm2.
    exact Hst.
Qed.

(** X15.  A source with no regular file (empty, or directories only): no
    call of the loop is made, so whatever the system would refuse, a full
    run whose save succeeds completes, reports 0 files and appends a record
    whose [files] is empty; an incremental or differential run that passes
    its precondition is skipped for lack of changes. *)
Theorem source_without_files env w :
  regular_files (source_dir w) = ∅ →
  (save_error env = None →
   ∃ w', full_backup md5 env w
         = (Return (path_of env ("full_backup_" +:+ now env), 0), w')
         ∧ stored_records w' = stored_records w ++ [full_record md5 env (source_dir w)]
         ∧ files (full_record md5 env (source_dir w)) = ∅)
  ∧ (∀ older ref,
       stored_records w = older ++ [ref] →
       ∃ w', incremental_backup md5 env w = (Return (None, 0), w')
             ∧ manifest_file w' = manifest_file w)
  ∧ (∀ ref,
       nearest_full (stored_records w) ref →
       ∃ w', differential_backup md5 env w = (Return (None, 0), w')
             ∧ manifest_file w' = manifest_file w).
Proof.
  intros Hempty.
  assert (∀ ops, io_ok env ops (regular_files (source_dir w))) as Hok.
  { intros ops q op [d Hd]. by rewrite Hempty, lookup_empty in Hd. }
  assert (∀ reference, changed_files md5 reference (source_dir w) = ∅) as Hnone.
  { intros reference. unfold changed_files. rewrite Hempty.
    apply map_filter_empty. }
  split; [|split].
  - intros Hsave. destruct (full_backup_run md5 env w) as (w' & _ & Hcase).
    rewrite (full_loop_fault_ok md5 env _ (Hok _)), Hsave in Hcase.
    destruct Hcase as (Hrun & _ & Hm). rewrite Hempty, map_size_empty in Hrun.
    exists w'. split; [done|]. split; [by apply stored_records_of|].
    cbn. by rewrite Hempty, fmap_empty.
  - intros older ref Hst.
    rewrite (incremental_backup_unfold md5 env w older ref Hst).
    destruct (delta_backup_no_changes md5 env "incremental" "incr_backup_"
                (older ++ [ref]) ref w (Hok _) (Hnone _))
      as (w' & Hrun & _ & Hm & _).
    by exists w'.
  - intros ref Hnf.
    rewrite (differential_backup_unfold md5 env w ref Hnf).
    destruct (delta_backup_no_changes md5 env "differential" "diff_backup_"
                (stored_records w) ref w (Hok _) (Hnone _))
      as (w' & Hrun & _ & Hm & _).
    by exists w'.
Qed.

(** X16.  A full run that completes in a folder that already exists (an
    earlier run in the same clock second) copies over it: a file the folder
    held that is no longer a regular file of the source stays in the folder,
    although the record appended does not list it. *)
Theorem rerun_merges_into_existing_folder env w old p d :
  let src := source_dir w in
  let folder := "full_backup_" +:+ now env in
  backup_dir w !! folder = Some old →
  old !! p = Some d →
  regular_files src !! p = None →
  io_ok env [op_mkdir; op_copy; op_read] (regular_files src) →
  save_error env = None →
  ∃ w' copied,
    full_backup md5 env w
    = (Return (path_of env folder, size (regular_files src)), w')
    ∧ backup_dir w' !! folder = Some copied
    ∧ copied !! p = Some d
    ∧ last (stored_records w') = Some (full_record md5 env src)
    ∧ files (full_record md5 env src) !! p = None.
Proof.
  cbn zeta. intros Hold Hp Hnone Hok Hsave.
  destruct (full_backup_run md5 env w) as (w' & _ & Hcase).
  rewrite (full_loop_fault_ok md5 env _ Hok), Hsave in Hcase.
  destruct Hcase as (Hrun & Hb & Hm).
  exists w', (regular_files (source_dir w) ∪ old).
  split; [done|]. split; [rewrite Hb, Hold; apply lookup_insert_eq|].
  split; [by rewrite lookup_union_r|].
  split; [unfold stored_records; by rewrite Hm, last_snoc|].
  cbn. by rewrite lookup_fmap, Hnone.
Qed.

End Edges.

(** ** The scenario, run further *)

(** A file of 4100 bytes is read as a chunk of 4096 and one of 4. *)
Lemma chunks_cover_file_witness :
  chunks (filler 4100) = [filler 4096; filler 4]
  ∧ Forall (λ c, String.length c = 4096) [filler 4096].
Proof.
  assert (chunks (filler 4100) = [filler 4096] ++ [filler 4]) as Hchunks
    by by vm_compute.
  split; [exact Hchunks|].
  exact (proj1 (proj2 (proj2 (chunks_cover_file (filler 4100)))) _ _ Hchunks).
Defined.

(** A hash object that keeps what it is fed: the chunks come back as the
    content. *)
Lemma chunked_hash_is_hash_of_content_witness :
  calculate_file_hash_chunked "" String.append id (filler 4100) = filler 4100.
Proof.
  exact (chunked_hash_is_hash_of_content "" String.append id append_assoc
           (filler 4100)).
Defined.

Lemma other_folders_untouched_witness :
  backup_dir (full_backup toy_digest (env_copy_refused "T2") world_edit2).2
    !! "full_backup_T0" = backup_dir world_edit2 !! "full_backup_T0"
  ∧ backup_dir (incremental_backup toy_digest (env_at "T2") world_edit2).2
      !! "incr_backup_T1" = backup_dir world_edit2 !! "incr_backup_T1"
  ∧ backup_dir (differential_backup toy_digest (env_at "T2") world_edit2).2
      !! "incr_backup_T1" = backup_dir world_edit2 !! "incr_backup_T1".
Proof.
  split; [|split].
  - apply (other_folders_untouched toy_digest (env_copy_refused "T2")
             world_edit2 "full_backup_T0").
    by vm_compute.
  - apply (other_folders_untouched toy_digest (env_at "T2") world_edit2
             "incr_backup_T1").
    by vm_compute.
  - apply (other_folders_untouched toy_digest (env_at "T2") world_edit2
             "incr_backup_T1").
    by vm_compute.
Defined.

Lemma manifest_append_only_witness :
  (∃ l, stored_records (full_backup toy_digest (env_at "T2") world_edit2).2
        = stored_records world_edit2 ++ l ∧ (length l ≤ 1)%nat)
  ∧ (∃ l, stored_records (incremental_backup toy_digest (env_at "T2") world_edit2).2
          = stored_records world_edit2 ++ l ∧ (length l ≤ 1)%nat)
  ∧ (∃ l, stored_records (differential_backup toy_digest (env_at "T2") world_edit2).2
          = stored_records world_edit2 ++ l ∧ (length l ≤ 1)%nat).
Proof.
  apply (manifest_append_only toy_digest (env_at "T2") world_edit2).
  discriminate.
Defined.

Lemma files_counted_witness :
  2 = size (regular_files (source_dir world0))
  ∧ (0 < 1 ≤ size (regular_files (source_dir world_edit1)))%nat
  ∧ (0 < 2 ≤ size (regular_files (source_dir world_edit2)))%nat.
Proof.
  split; [|split].
  - exact (proj1 (proj2 (files_counted toy_digest (env_at "T0") world0))
             _ _ _ full_run_completes).
  - exact (proj1 (proj2 (proj2 (files_counted toy_digest (env_at "T1") world_edit1)))
             _ _ _ incremental_run_completes).
  - exact (proj2 (proj2 (proj2 (files_counted toy_digest (env_at "T2") world_edit2)))
             _ _ _ differential_run_completes).
Defined.


Lemma callers_swallow_loop_failure_witness :
  (∃ op p w',
     full_backup_call toy_digest (env_copy_refused "T2") world_edit2
     = (Return (failed_lines (OSError op p)), w')
     ∧ backup_dir w' !! "full_backup_T2" = None)
  ∧ (∃ op p w',
       incremental_backup_call toy_digest (env_copy_refused "T2") world_edit2
       = (Return (failed_lines (OSError op p)), w')
       ∧ backup_dir w' !! "incr_backup_T2" = None)
  ∧ (∃ op p w',
       differential_backup_call toy_digest (env_copy_refused "T2") world_edit2
       = (Return (failed_lines (OSError op p)), w')
       ∧ backup_dir w' !! "diff_backup_T2" = None).
Proof.
  destruct (callers_swallow_loop_failure toy_digest (env_copy_refused "T2")
              world_edit2) as (Hfull & Hincr & Hdiff).
  split; [|split].
  - destruct Hfull as (op & p & w' & Hrun & _ & Hdir & _).
    + exists "b.txt", "world!", op_copy. split; by vm_compute.
    + exists op, p, w'. exact (conj Hrun Hdir).
  - destruct (Hincr [record_full] record_incr)
      as (op & p & w' & Hrun & _ & Hdir & _).
    + exact stored_records_edit2.
    + apply copy_refused_in_delta_loop. by vm_compute.
    + exists op, p, w'. exact (conj Hrun Hdir).
  - destruct (Hdiff record_full) as (op & p & w' & Hrun & _ & Hdir & _).
    + exact nearest_full_edit2.
    + apply copy_refused_in_delta_loop. by vm_compute.
    + exists op, p, w'. exact (conj Hrun Hdir).
Defined.

Lemma skipped_run_prints_none_witness :
  (∃ w', incremental_backup_call toy_digest (env_at "T0") world0
         = (Return [""; "[green]• Backup location: None";
                    "[green]• Files updated: 0"; ""], w'))
  ∧ (∃ w', differential_backup_call toy_digest (env_at "T2") world_no_full
           = (Return [""; "[green]• Backup location: None";
                      "[green]• Files updated: 0"; ""], w'))
  ∧ (∃ w', incremental_backup_call toy_digest (env_at "T1") world_full
           = (Return [""; "[green]• Backup location: None";
                      "[green]• Files updated: 0"; ""], w'))
  ∧ (∃ w', differential_backup_call toy_digest (env_at "T1") world_full
           = (Return [""; "[green]• Backup location: None";
                      "[green]• Files updated: 0"; ""], w')).
Proof.
  split; [|split; [|split]].
  - apply (proj1 (skipped_run_prints_none toy_digest (env_at "T0") world0)).
    reflexivity.
  - apply (proj1 (proj2 (skipped_run_prints_none toy_digest (env_at "T2")
                           world_no_full))).
    apply Forall_singleton. by vm_compute.
  - apply (proj1 (proj2 (proj2 (skipped_run_prints_none toy_digest (env_at "T1")
                                  world_full))) [] record_full).
    + exact stored_records_full.
    + apply no_io_error_ok.
    + exact unchanged_since_full.
  - apply (proj2 (proj2 (proj2 (skipped_run_prints_none toy_digest (env_at "T1")
                                  world_full))) record_full).
    + exact nearest_full_full.
    + apply no_io_error_ok.
    + exact unchanged_since_full.
Defined.

Lemma full_then_delta_is_skipped_witness :
  ∃ w1,
    full_backup toy_digest (env_at "T0") world0
    = (Return ("/backups/full_backup_T0", 2), w1)
    ∧ (∃ w2, incremental_backup toy_digest (env_at "T1") w1 = (Return (None, 0), w2)
             ∧ stored_records w2 = [record_full])
    ∧ (∃ w2, differential_backup toy_digest (env_at "T1") w1 = (Return (None, 0), w2)
             ∧ stored_records w2 = [record_full]).
Proof.
  destruct (full_then_delta_is_skipped toy_digest (env_at "T0") (env_at "T1") world0)
    as (w1 & Hrun & Hincr & Hdiff).
  - apply no_io_error_ok.
  - reflexivity.
  - apply no_io_error_ok.
  - exists w1. split; [etransitivity; [exact Hrun|by vm_compute]|].
    exact (conj Hincr Hdiff).
Defined.




Lemma differential_after_differential_witness :
  ∃ w1 w2,
    differential_backup toy_digest (env_at "T2") world_edit2
    = (Return (Some "/backups/diff_backup_T2", 2), w1)
    ∧ differential_backup toy_digest (env_at "T3") w1
      = (Return (Some "/backups/diff_backup_T3", 2), w2)
    ∧ length (stored_records w2) = 4.
Proof.
  destruct (differential_after_differential toy_digest (env_at "T2") (env_at "T3")
              world_edit2 record_full)
    as (w1 & w2 & Hrun & Hrun2 & Hst).
  - exact nearest_full_edit2.
  - apply no_io_error_ok.
  - reflexivity.
  - apply no_io_error_ok.
  - reflexivity.
  - exact changed_since_full_nonempty.
  - exists w1, w2. split; [etransitivity; [exact Hrun|by vm_compute]|].
    split; [etransitivity; [exact Hrun2|by vm_compute]|].
    rewrite Hst, stored_records_edit2. reflexivity.
Defined.

(** Full(T0) completes; a second full run in the same second has the copy
    of [b.txt] refused. *)
Lemma failed_rerun_removes_earlier_folder_witness :
  ∃ w1 w2 op p,
    full_backup toy_digest (env_at "T0") world0
    = (Return ("/backups/full_backup_T0", 2), w1)
    ∧ is_Some (backup_dir w1 !! "full_backup_T0")
    ∧ full_backup toy_digest (env_copy_refused "T0") w1 = (Raise (OSError op p), w2)
    ∧ backup_dir w2 !! "full_backup_T0" = None
    ∧ last (stored_records w2) = Some record_full
    ∧ path record_full = "/backups/full_backup_T0".
Proof.
  destruct (failed_rerun_removes_earlier_folder toy_digest (env_at "T0")
              (env_copy_refused "T0") world0)
    as (w1 & w2 & op & p & Hrun & Hdir & Hrun2 & Hdir2 & Hlast & Hpath).
  - reflexivity.
  - apply no_io_error_ok.
  - reflexivity.
  - exists "b.txt", "world", op_copy. split; by vm_compute.
  - exists w1, w2, op, p. split; [etransitivity; [exact Hrun|by vm_compute]|].
    exact (conj Hdir (conj Hrun2 (conj Hdir2 (conj Hlast Hpath)))).
Defined.

(** After Full(T0), [b.txt] is removed from the source. *)
Lemma deletion_is_not_detected_witness :
  ∃ w1,
    full_backup toy_digest (env_at "T0") world0
    = (Return ("/backups/full_backup_T0", 2), w1)
    ∧ source_dir (remove_source "b.txt" w1) !! "b.txt" = None
    ∧ (∃ w2, incremental_backup toy_digest (env_at "T1") (remove_source "b.txt" w1)
             = (Return (None, 0), w2))
    ∧ (∃ w2, differential_backup toy_digest (env_at "T1") (remove_source "b.txt" w1)
             = (Return (None, 0), w2)).
Proof.
  destruct (deletion_is_not_detected toy_digest (env_at "T0") (env_at "T1")
              world0 "b.txt")
    as (w1 & Hrun & Hs & (w2 & Hincr & _) & (w3 & Hdiff & _)).
  - apply no_io_error_ok.
  - reflexivity.
  - apply no_io_error_ok.
  - exists w1. split; [etransitivity; [exact Hrun|by vm_compute]|].
    split; [rewrite Hs; apply lookup_delete_eq|].
    split; [exists w2; exact Hincr|exists w3; exact Hdiff].
Defined.

Lemma source_without_files_witness :
  ∃ w', full_backup toy_digest (env_copy_refused "T0") world_dirs_only
        = (Return ("/backups/full_backup_T0", 0), w')
        ∧ length (stored_records w') = 1.
Proof.
  destruct (source_without_files toy_digest (env_copy_refused "T0") world_dirs_only)
    as (Hfull & _).
  - by vm_compute.
  - destruct Hfull as (w' & Hrun & Hst & _); [reflexivity|].
    exists w'. split; [exact Hrun|]. rewrite Hst. reflexivity.
Defined.

(** Full(T0), [b.txt] removed from the source, and a second full run in the
    same second: [b.txt] is still in the folder. *)
Lemma rerun_merges_into_existing_folder_witness :
  ∃ w' copied,
    full_backup toy_digest (env_at "T0") (remove_source "b.txt" world_full)
    = (Return ("/backups/full_backup_T0", 1), w')
    ∧ backup_dir w' !! "full_backup_T0" = Some copied
    ∧ copied !! "b.txt" = Some "world".
Proof.
  destruct (rerun_merges_into_existing_folder toy_digest (env_at "T0")
              (remove_source "b.txt" world_full)
              (<["a.txt" := "hello"]> (<["b.txt" := "world"]> ∅)) "b.txt" "world")
    as (w' & copied & Hrun & Hdir & Hp & _).
  - by vm_compute.
  - by vm_compute.
  - by vm_compute.
  - apply no_io_error_ok.
  - reflexivity.
  - exists w', copied. split; [etransitivity; [exact Hrun|by vm_compute]|].
    exact (conj Hdir Hp).
Defined.
